(** * agate: the Number data type and TableSet, embedded from
    [agate/data_types/number.py] and [agate/tableset.py].

    Python values are an inductive type, text is a list of Unicode code
    points, exceptions are the [Raise] side of a result type, and an
    [OrderedDict] is an association list in insertion order. *)

From Stdlib Require Import List ZArith NArith String Ascii Bool Lia.
From Stdlib Require Import Floats.SpecFloat.
Import ListNotations.
Local Open Scope list_scope.

Set Implicit Arguments.
Set Warnings "-register-all".

(** ** Python text *)

Module Py.

(** A [str] is a sequence of code points. *)
Definition str := list N.

Definition str_eq_dec : forall a b : str, {a = b} + {a <> b} :=
  list_eq_dec N.eq_dec.

(** An ASCII literal as a [str]. *)
Definition u (s : string) : str :=
  map N_of_ascii (list_ascii_of_string s).

Definition mem (c : N) (chars : str) : bool := existsb (N.eqb c) chars.

(** [x in seq] for a sequence of strings. *)
Definition str_in (s : str) (l : list str) : bool :=
  if in_dec str_eq_dec s l then true else false.

(** The code points for which [str.isspace] holds. *)
Definition whitespace : str :=
  [0x09; 0x0A; 0x0B; 0x0C; 0x0D; 0x1C; 0x1D; 0x1E; 0x1F; 0x20; 0x85; 0xA0;
   0x1680; 0x2000; 0x2001; 0x2002; 0x2003; 0x2004; 0x2005; 0x2006; 0x2007;
   0x2008; 0x2009; 0x200A; 0x2028; 0x2029; 0x202F; 0x205F; 0x3000]%N.

Definition isspace (c : N) : bool := mem c whitespace.

(** [lstrip], [rstrip] and [strip] over a predicate on code points: every
    leading (trailing) code point that satisfies it is dropped. *)
Fixpoint lstrip_by (p : N -> bool) (s : str) : str :=
  match s with
  | [] => []
  | c :: s' => if p c then lstrip_by p s' else s
  end.

Definition rstrip_by (p : N -> bool) (s : str) : str :=
  rev (lstrip_by p (rev s)).

Definition strip_by (p : N -> bool) (s : str) : str :=
  rstrip_by p (lstrip_by p s).

(** [s] is empty, or neither its first nor its last code point satisfies
    [p]. *)
Definition plain_ends (p : N -> bool) (s : str) : bool :=
  match s with
  | [] => true
  | c :: _ => negb (p c) && negb (p (last s c))
  end.

(** [s.strip()] *)
Definition strip (s : str) : str := strip_by isspace s.

(** [s.strip(chars)]: the argument is a set of code points. *)
Definition strip_chars (chars : str) (s : str) : str :=
  strip_by (fun c => mem c chars) s.

(** [s.replace(old, new)] for a one code point [old]. *)
Definition replace1 (old : N) (new : str) (s : str) : str :=
  flat_map (fun c => if N.eqb c old then new else [c]) s.

(** [str.lower] on the ASCII range; other code points are kept. *)
Definition ascii_lower (s : str) : str :=
  map (fun c => if (65 <=? c)%N && (c <=? 90)%N then (c + 32)%N else c) s.

(** ** Decimals *)

(** A [decimal.Decimal]: sign, coefficient and exponent, or a special. *)
Inductive Decimal :=
| Finite (negative : bool) (coefficient : N) (exponent : Z)
| Infinity (negative : bool)
| NaN (negative : bool) (signaling : bool) (payload : N).

(** [Decimal(n)] for an integer: exact. *)
Definition Decimal_of_int (n : Z) : Decimal :=
  Finite (n <? 0)%Z (Z.abs_N n) 0.

(** ** Values, exceptions, results *)

Inductive value :=
| PyNone
| PyBool (b : bool)
| PyInt (n : Z)
| PyFloat (x : spec_float)
| PyDecimal (d : Decimal)
| PyStr (s : str)
| PyTuple (items : list value)
| PyList (items : list value).

(** An exception message: a literal, or a format string with the one value
    that fills its [%s]. *)
Inductive message :=
| Msg (text : string)
| MsgFormat (fmt : string) (arg : value).

Inductive exn :=
| CastError (m : message)
| ValueError (m : message)
| TypeError (m : message)
| IndexError (m : message)
| KeyError (key : str)
| ColumnDoesNotExistError (k : str)
| AttributeError (attr : string)
| UnboundLocalError (name : string).

Inductive result (A : Type) :=
| Ok (a : A)
| Raise (e : exn).

Arguments Ok {A} a.
Arguments Raise {A} e.

Definition bind {A B} (r : result A) (k : A -> result B) : result B :=
  match r with
  | Ok a => k a
  | Raise e => Raise e
  end.

(** [fmt % d] for a format with exactly one [%s]: a tuple on the right is the
    argument tuple, anything else is the single argument. The values above
    all have a printed form; an object of another class whose [__str__]
    raises is not among them. *)
Definition format1 (fmt : string) (d : value) : result message :=
  match d with
  | PyTuple [] => Raise (TypeError (Msg "not enough arguments for format string"))
  | PyTuple [x] => Ok (MsgFormat fmt x)
  | PyTuple (_ :: _ :: _) =>
      Raise (TypeError (Msg "not all arguments converted during string formatting"))
  | _ => Ok (MsgFormat fmt d)
  end.

End Py.

Import Py.

Declare Scope py_scope.
Delimit Scope py_scope with py.
Notation "x <- c ;; k" := (bind c (fun x => k))
  (at level 61, c at next level, right associativity) : py_scope.
Notation "' p <- c ;; k" := (bind c (fun x => let p := x in k))
  (at level 61, p pattern, c at next level, right associativity) : py_scope.
Local Open Scope py_scope.

(** ** Babel's [parse_decimal], as run on ASCII digits

    This is used on closed texts only. It leaves out digits outside ASCII,
    underscores between digits and the limits of the decimal context, and it
    knows the two locales that the docstring of [Number] names. *)

Module Babel.

(** Group and decimal symbol of a locale; [None] when [Locale.parse] fails.
    The two locales of the [Number] docstring are given. *)
Definition number_symbols (locale : str) : option (N * N) :=
  if str_eq_dec locale (u "en_US") then Some (44, 46)%N
  else if str_eq_dec locale (u "de_DE") then Some (46, 44)%N
  else None.

Definition is_digit (c : N) : bool := ((48 <=? c) && (c <=? 57))%N.

(** The longest prefix of digits, as digit values, and the rest. *)
Fixpoint span_digits (s : str) : list N * str :=
  match s with
  | [] => ([], [])
  | c :: s' =>
      if is_digit c
      then let (ds, r) := span_digits s' in ((c - 48)%N :: ds, r)
      else ([], s)
  end.

Definition digits_value (ds : list N) : N :=
  fold_left (fun acc d => (10 * acc + d)%N) ds 0%N.

(** An optional sign: [true] for minus. *)
Definition take_sign (s : str) : bool * str :=
  match s with
  | 43%N :: r => (false, r)
  | 45%N :: r => (true, r)
  | _ => (false, s)
  end.

Definition is_nil {A} (l : list A) : bool :=
  match l with [] => true | _ => false end.

(** The exponent part: empty, or [E], an optional sign and digits. *)
Definition exponent_part (s : str) : option Z :=
  match s with
  | [] => Some 0%Z
  | c :: r =>
      if (N.eqb c 69 || N.eqb c 101)%bool
      then let (eneg, r1) := take_sign r in
           let (ds, r2) := span_digits r1 in
           if (is_nil ds || negb (is_nil r2))%bool then None
           else let e := Z.of_N (digits_value ds) in
                Some (if eneg then (- e)%Z else e)
      else None
  end.

(** [NaN] or [sNaN] with diagnostic digits, on lower-cased text. *)
Definition nan_part (neg : bool) (s : str) : option Decimal :=
  let (signaling, r) :=
    match s with
    | 115%N :: r => (true, r)
    | _ => (false, s)
    end in
  match r with
  | 110%N :: 97%N :: 110%N :: r1 =>
      let (ds, r2) := span_digits r1 in
      if is_nil r2 then Some (NaN neg signaling (digits_value ds)) else None
  | _ => None
  end.

(** [Decimal(s)] for text: surrounding whitespace is dropped, then a sign,
    then a number with at least one digit, an infinity or a NaN. *)
Definition Decimal_of_str (s : str) : option Decimal :=
  let (neg, body) := take_sign (strip s) in
  let (ip, r1) := span_digits body in
  let (fp, r2) :=
    match r1 with
    | 46%N :: r => span_digits r
    | _ => ([], r1)
    end in
  if (is_nil ip && is_nil fp)%bool then
    let low := ascii_lower body in
    if str_eq_dec low (u "inf") then Some (Infinity neg)
    else if str_eq_dec low (u "infinity") then Some (Infinity neg)
    else nan_part neg low
  else
    match exponent_part r2 with
    | Some e =>
        Some (Finite neg (digits_value (ip ++ fp))
                     (e - Z.of_nat (List.length fp))%Z)
    | None => None
    end.

(** [parse_decimal(string, locale)]: group symbols are removed, the decimal
    symbol becomes a point, and the rest is read as a [Decimal]; [None] is
    any exception. *)
Definition parse_decimal (string : str) (locale : str) : option Decimal :=
  match number_symbols locale with
  | Some (group, decimal) =>
      Decimal_of_str (replace1 decimal [46%N] (replace1 group [] string))
  | None => None
  end.

End Babel.

(** ** [agate.data_types.number] *)

Module number.

(** The nineteen currency symbols of the source list, in its order; each
    is one code point (afghani U+060B, dollar U+0024, florin U+0192, ...,
    dong U+20AB). *)
Definition CURRENCY_SYMBOLS : list str :=
  [[0x060B]; [0x24]; [0x0192]; [0x17DB]; [0xA5]; [0x20A1]; [0x20B1]; [0xA3];
   [0x20AC]; [0xA2]; [0xFDFC]; [0x20AA]; [0x20A9]; [0x20AD]; [0x20AE];
   [0x20A6]; [0x0E3F]; [0x20A4]; [0x20AB]]%N.

(** A [Number] instance: its locale and the null sentinels it inherits from
    [DataType]. *)
Record Number := {
  _locale : str;
  null_values : list str
}.

(** A code point that [test] strips: the percent sign or a currency
    symbol. *)
Definition decorated (c : N) : bool :=
  mem c (u "%") || existsb (mem c) CURRENCY_SYMBOLS.

Definition dquote : string := String (ascii_of_nat 34) EmptyString.

Definition float_message : string :=
  "Can not convert float to Decimal. Convert data to string first!".

Definition parse_message : string :=
  ("Can not parse value " ++ dquote ++ "%s" ++ dquote ++ " as Decimal.")%string.

Section WithRuntime.

(** [str.lower] and Babel's [parse_decimal] ([None]: it raised). *)
Variable lower : str -> str.
Variable parse_decimal : str -> str -> option Decimal.

(** Lines 35-36 of [test]. *)
Definition percent_stripped (d : str) : str :=
  let d := strip d in
  strip_chars (u "%") d.

(** Lines 35-39 of [test]: the text after the three rounds of stripping. *)
Definition test_strip (d : str) : str :=
  let d := percent_stripped d in
  fold_left (fun d symbol => strip_chars symbol d) CURRENCY_SYMBOLS d.

Definition test (self : Number) (d : str) : bool :=
  let d := test_strip d in
  if str_in (lower d) (null_values self) then true
  else
    match parse_decimal d (_locale self) with
    | Some _ => true
    | None => false
    end.

(** [parse_decimal(d, self._locale)] for any [d]: only text has the
    [replace] method that Babel calls. *)
Definition parse_any (self : Number) (d : value) : option Decimal :=
  match d with
  | PyStr s => parse_decimal s (_locale self)
  | _ => None
  end.

(** Lines 69-72 of [cast]: the parse, and the handler that builds the
    [CastError] message from [d]. *)
Definition cast_parse (self : Number) (d : value) : result value :=
  match parse_any self d with
  | Some x => Ok (PyDecimal x)
  | None =>
      m <- format1 parse_message d ;;
      Raise (CastError m)
  end.

Definition cast (self : Number) (d : value) : result value :=
  match d with
  | PyDecimal _ | PyNone => Ok d
  | PyInt n => Ok (PyDecimal (Decimal_of_int n))
  | PyBool b => Ok (PyDecimal (Decimal_of_int (if b then 1 else 0)))
  | PyFloat _ => Raise (CastError (Msg float_message))
  | PyStr s =>
      let d := strip s in
      if str_in (lower d) (null_values self) then Ok PyNone
      else cast_parse self (PyStr d)
  | _ => cast_parse self d
  end.

End WithRuntime.

End number.

(** ** [agate.tableset] *)

Module tableset.

Section WithDataTypes.

(** Column types are [DataType] instances; [!=] on them is decided by
    [DataType_eq_dec], and [Text] is what [Text()] builds. *)
Variable DataType : Type.
Variable DataType_eq_dec : forall a b : DataType, {a = b} + {a <> b}.
Variable Text : DataType.

(** [data_type.cast(d)]: how a column type casts a cell. *)
Variable cast : DataType -> value -> result value.

Definition types_eq_dec : forall a b : list DataType, {a = b} + {a <> b} :=
  list_eq_dec DataType_eq_dec.

Definition names_eq_dec : forall a b : list str, {a = b} + {a <> b} :=
  list_eq_dec str_eq_dec.

(** Modelled from the spec: the [Table] collaborator ([agate/table.py] is
    not among the sources): an ordered sequence of named, typed columns and
    an ordered sequence of rows. *)
Record Table := {
  table_column_names : list str;
  table_column_types : list DataType;
  table_rows : list (list value)
}.

Definition get_column_names (t : Table) : list str := table_column_names t.
Definition get_column_types (t : Table) : list DataType := table_column_types t.

(** Modelled from the spec: a column of a [Table], its declared type and its
    values. *)
Record Column := {
  column_type : DataType;
  column_values : list value
}.

Fixpoint index_of (name : str) (names : list str) : option nat :=
  match names with
  | [] => None
  | n :: rest =>
      if str_eq_dec name n then Some 0
      else option_map S (index_of name rest)
  end.

(** Modelled from the spec: [table.columns[name]], the lookup of a column by
    name; a name the table does not have raises. *)
Definition columns (t : Table) (name : str) : result Column :=
  match index_of name (table_column_names t) with
  | Some i =>
      match nth_error (table_column_types t) i with
      | Some ty =>
          Ok {| column_type := ty;
                column_values := map (fun r => nth i r PyNone) (table_rows t) |}
      | None => Raise (ColumnDoesNotExistError name)
      end
  | None => Raise (ColumnDoesNotExistError name)
  end.

(** Modelled from the spec: an aggregation operator, which infers a result
    type from a column and reduces a column to one value (or raises). *)
Record Aggregation := {
  get_aggregate_column_type : Column -> DataType;
  run : Column -> result value
}.

(** [c.aggregate(aggregation)] *)
Definition Column_aggregate (c : Column) (aggregation : Aggregation)
  : result value :=
  run aggregation c.

(** [len(set(names)) == len(names)] *)
Fixpoint distinct (names : list str) : bool :=
  match names with
  | [] => true
  | n :: rest => negb (str_in n rest) && distinct rest
  end.

(** The cells of one row, each cast by the type of its column. *)
Fixpoint cast_cells (column_types : list DataType) (row : list value)
  : result (list value) :=
  match column_types, row with
  | ty :: types, d :: cells =>
      v <- cast ty d ;;
      vs <- cast_cells types cells ;;
      Ok (v :: vs)
  | _, _ => Ok []
  end.

Definition row_length_message : message :=
  Msg "Row length does not match the number of columns.".
Definition duplicate_names_message : message :=
  Msg "Duplicate column names are not allowed.".

(** One row of a new table: it has one cell per column. *)
Definition cast_row (column_types : list DataType) (row : list value)
  : result (list value) :=
  if Nat.eqb (List.length row) (List.length column_types)
  then cast_cells column_types row
  else Raise (ValueError row_length_message).

Fixpoint cast_rows (column_types : list DataType) (rows : list (list value))
  : result (list (list value)) :=
  match rows with
  | [] => Ok []
  | row :: rest =>
      r <- cast_row column_types row ;;
      rs <- cast_rows column_types rest ;;
      Ok (r :: rs)
  end.

(** Modelled from the spec: the construction of a [Table] from raw rows and
    a sequence of (name, type) pairs. The table is typed by its columns:
    the names are unique, every row has one cell per column, and each cell
    is cast by the type of its column, so that a cell the type refuses makes
    the construction raise. *)
Definition Table_init (rows : list (list value))
    (column_info : list (str * DataType)) : result Table :=
  let column_names := map fst column_info in
  let column_types := map snd column_info in
  if distinct column_names then
    data <- cast_rows column_types rows ;;
    Ok {| table_column_names := column_names;
          table_column_types := column_types;
          table_rows := data |}
  else Raise (ValueError duplicate_names_message).

(** Modelled from the spec: [table._fork(rows, column_info)] constructs a new
    [Table] from raw rows and a sequence of (name, type) pairs, under the
    construction contract of every table. *)
Definition _fork (self : Table) (rows : list (list value))
    (column_info : list (str * DataType)) : result Table :=
  Table_init rows column_info.

(** A [TableSet] and what it holds: tables or further table sets, in an
    [OrderedDict] keyed by group. *)
Inductive TableSet :=
| mkTableSet (key_name : str) (key_type : DataType) (sample_table : Table)
    (column_types : list DataType) (column_names : list str)
    (tables : list (str * Member))
with Member :=
| MTable (t : Table)
| MSet (s : TableSet).

Definition _key_name (self : TableSet) : str :=
  match self with mkTableSet key_name _ _ _ _ _ => key_name end.
Definition _key_type (self : TableSet) : DataType :=
  match self with mkTableSet _ key_type _ _ _ _ => key_type end.
Definition _sample_table (self : TableSet) : Table :=
  match self with mkTableSet _ _ sample_table _ _ _ => sample_table end.
Definition _column_types (self : TableSet) : list DataType :=
  match self with mkTableSet _ _ _ column_types _ _ => column_types end.
Definition _column_names (self : TableSet) : list str :=
  match self with mkTableSet _ _ _ _ column_names _ => column_names end.
Definition _tables (self : TableSet) : list (str * Member) :=
  match self with mkTableSet _ _ _ _ _ tables => tables end.

Definition odict := list (str * Member).

Definition keys (d : odict) : list str := map fst d.
Definition values (d : odict) : list Member := map snd d.

(** [d[k] = v] on an [OrderedDict]: a key it has keeps its place. *)
Fixpoint odict_set (k : str) (v : Member) (d : odict) : odict :=
  match d with
  | [] => [(k, v)]
  | (k', v') :: rest =>
      if str_eq_dec k k' then (k, v) :: rest
      else (k', v') :: odict_set k v rest
  end.

(** [m._column_types] and [m._column_names] of a member. *)
Definition member_column_types (m : Member) : list DataType :=
  match m with
  | MTable t => table_column_types t
  | MSet s => _column_types s
  end.

Definition member_column_names (m : Member) : list str :=
  match m with
  | MTable t => table_column_names t
  | MSet s => _column_names s
  end.

Definition index_error : exn := IndexError (Msg "list index out of range").

(** [list(group.values())[0]] *)
Definition first_value (group : odict) : result Member :=
  match values group with
  | [] => Raise index_error
  | m :: _ => Ok m
  end.

(** Lines 81-82: descend through first members to a [Table]. *)
Fixpoint resolve_sample (m : Member) : result Table :=
  match m with
  | MTable t => Ok t
  | MSet (mkTableSet _ _ _ _ _ tables) =>
      match tables with
      | [] => Raise index_error
      | (_, m') :: _ => resolve_sample m'
      end
  end.

(** Lines 79-82: the sample table of a group. *)
Definition find_sample (group : odict) : result Table :=
  first <- first_value group ;;
  resolve_sample first.

Definition types_message : message :=
  Msg "Not all tables have the same column types!".
Definition names_message : message :=
  Msg "Not all tables have the same column names!".

(** Lines 87-92: the loop over [group.items()]. *)
Fixpoint check_members (column_types : list DataType)
    (column_names : list str) (group : odict) : result unit :=
  match group with
  | [] => Ok tt
  | (name, table) :: rest =>
      if types_eq_dec (member_column_types table) column_types then
        if names_eq_dec (member_column_names table) column_names then
          check_members column_types column_names rest
        else Raise (ValueError names_message)
      else Raise (ValueError types_message)
  end.

(** [TableSet.__init__(group, key_name='group', key_type=None)] *)
Definition TableSet_init (group : odict) (key_name : option str)
    (key_type : option DataType) : result TableSet :=
  let key_name := match key_name with Some n => n | None => u "group" end in
  let key_type := match key_type with Some t => t | None => Text end in
  sample_table <- find_sample group ;;
  let column_types := get_column_types sample_table in
  let column_names := get_column_names sample_table in
  _ <- check_members column_types column_names group ;;
  Ok (mkTableSet key_name key_type sample_table column_types column_names
                 group).

(** [__iter__], [__len__] and [__getitem__] *)
Definition TableSet_iter (self : TableSet) : list str := keys (_tables self).

Definition TableSet_len (self : TableSet) : nat := List.length (_tables self).

Fixpoint odict_get (k : str) (d : odict) : result Member :=
  match d with
  | [] => Raise (KeyError k)
  | (k', v) :: rest => if str_eq_dec k k' then Ok v else odict_get k rest
  end.

Definition TableSet_getitem (self : TableSet) (k : str) : result Member :=
  odict_get k (_tables self).

(** Lines 51-54: the loop of [TableMethodProxy.__call__] over
    [tableset._tables.items()]; [call] is [getattr(value, method_name)] with
    the arguments applied. *)
Fixpoint proxy_loop (call : Member -> result Member) (items : odict)
    (groups : odict) : result odict :=
  match items with
  | [] => Ok groups
  | (key, value) :: rest =>
      r <- call value ;;
      proxy_loop call rest (odict_set key r groups)
  end.

(** [TableMethodProxy.__call__]: [method] is the table method of the proxied
    name with the call's arguments; on a nested set the attribute of that
    name is the nested set's own proxy. *)
Fixpoint TableMethodProxy_call (method : Table -> result Member)
    (tableset : TableSet) : result TableSet :=
  match tableset with
  | mkTableSet key_name _ _ _ _ tables =>
      groups <-
        proxy_loop
          (fun value =>
             match value with
             | MTable t => method t
             | MSet s =>
                 s' <- TableMethodProxy_call method s ;; Ok (MSet s')
             end) tables [] ;;
      TableSet_init groups (Some key_name) None
  end.

(** An aggregation triple: (column_name, aggregation, new_column_name). *)
Definition aggregation_spec : Type := (str * Aggregation * str)%type.

(** Lines 233-237: one output column per triple. *)
Fixpoint schema_loop (sample_table : Table) (aggregations : list aggregation_spec)
    (column_names : list str) (column_types : list DataType)
  : result (list str * list DataType) :=
  match aggregations with
  | [] => Ok (column_names, column_types)
  | (column_name, aggregation, new_column_name) :: rest =>
      c <- columns sample_table column_name ;;
      schema_loop sample_table rest
        (column_names ++ [new_column_name])
        (column_types ++ [get_aggregate_column_type aggregation c])
  end.

(** [table.columns[column_name]] on a member: a [TableSet] has no
    [columns]. *)
Definition member_columns (table : Member) (column_name : str)
  : result Column :=
  match table with
  | MTable t => columns t column_name
  | MSet _ => Raise (AttributeError "columns")
  end.

(** Lines 242-245: the cells of one row. *)
Fixpoint row_loop (table : Member) (aggregations : list aggregation_spec)
    (new_row : list value) : result (list value) :=
  match aggregations with
  | [] => Ok new_row
  | (column_name, aggregation, new_column_name) :: rest =>
      c <- member_columns table column_name ;;
      v <- Column_aggregate c aggregation ;;
      row_loop table rest (new_row ++ [v])
  end.

(** Lines 239-247: one row per member. *)
Fixpoint tables_loop (items : odict) (aggregations : list aggregation_spec)
    (output : list (list value)) : result (list (list value)) :=
  match items with
  | [] => Ok output
  | (name, table) :: rest =>
      new_row <- row_loop table aggregations [PyStr name] ;;
      tables_loop rest aggregations (output ++ [new_row])
  end.

Definition aggregated : Type :=
  (list str * list DataType * list (list value))%type.

Definition header : Type := (list str * list DataType)%type.

(** Lines 218-224: the loop over nested sets; [nested] is the recursive call
    and [last] the header of the latest nested result. *)
Fixpoint nested_loop (nested : TableSet -> result aggregated) (items : odict)
    (last : option header) (output : list (list value))
  : result (option header * list (list value)) :=
  match items with
  | [] => Ok (last, output)
  | (key, MSet tableset) :: rest =>
      '(column_names, column_types, nested_output) <- nested tableset ;;
      nested_loop nested rest (Some (column_names, column_types))
                  (output ++ map (cons (PyStr key)) nested_output)
  | (key, MTable _) :: rest => Raise (AttributeError "_aggregate")
  end.

(** [TableSet._aggregate]: the branch is chosen by the first member; in the
    nested branch the header is the one of the last nested result. *)
Fixpoint _aggregate (self : TableSet) (aggregations : list aggregation_spec)
  : result aggregated :=
  match self with
  | mkTableSet key_name key_type sample_table _ _ tables =>
      match tables with
      | [] => Raise index_error
      | (_, MSet _) :: _ =>
          '(last, output) <-
            nested_loop (fun tableset => _aggregate tableset aggregations)
                        tables None [] ;;
          match last with
          | Some (column_names, column_types) =>
              Ok (key_name :: column_names, key_type :: column_types, output)
          | None => Raise (UnboundLocalError "column_names")
          end
      | (_, MTable _) :: _ =>
          '(column_names, column_types) <-
            schema_loop sample_table aggregations [key_name] [key_type] ;;
          output <- tables_loop tables aggregations [] ;;
          Ok (column_names, column_types, output)
      end
  end.

(** [TableSet.aggregate] *)
Definition aggregate (self : TableSet) (aggregations : list aggregation_spec)
  : result Table :=
  '(column_names, column_types, output) <- _aggregate self aggregations ;;
  _fork (_sample_table self) output (combine column_names column_types).

(** The exceptions that [__init__] raises by a [raise] statement of its
    own. *)
Definition raised_by_init (e : exn) : Prop :=
  e = ValueError types_message \/ e = ValueError names_message.

Definition is_table (m : Member) : Prop := exists t, m = MTable t.

(** A member whose names and types are those of the sample table. *)
Definition same_schema (sample : Table) (kv : str * Member) : Prop :=
  member_column_types (snd kv) = get_column_types sample /\
  member_column_names (snd kv) = get_column_names sample.

(** The (outer key, inner key, member) combinations of a set of sets, in
    iteration order. *)
Definition leaves (tables : odict) : list (str * str * Member) :=
  flat_map
    (fun '(key, m) =>
       match m with
       | MSet s => map (fun '(name, table) => (key, name, table)) (_tables s)
       | MTable _ => []
       end) tables.

(** [ty] is the type that the aggregation of a triple infers from its column
    of [sample]. *)
Definition column_typed (sample : Table) (ty : DataType)
    (a : aggregation_spec) : Prop :=
  exists c, columns sample (fst (fst a)) = Ok c /\
            ty = get_aggregate_column_type (snd (fst a)) c.

(** [row] is the row of a member: its key and its aggregated cells. *)
Definition member_row (aggregations : list aggregation_spec)
    (row : list value) (kv : str * Member) : Prop :=
  exists cells, row_loop (snd kv) aggregations [] = Ok cells /\
                row = PyStr (fst kv) :: cells.

(** One nested result per member, each from the member's own
    aggregation. *)
Definition nested_results (aggregations : list aggregation_spec)
    (tables : odict) (results : list aggregated) : Prop :=
  Forall2 (fun kv r => exists s, snd kv = MSet s /\
                                 _aggregate s aggregations = Ok r)
          tables results.

(** The rows of the nested results, each with the key of the member it
    comes from, in iteration order. *)
Definition keyed_rows (tables : odict) (results : list aggregated)
  : list (str * list value) :=
  flat_map (fun p => map (pair (fst (fst p))) (snd (snd p)))
           (combine tables results).

(** [row] begins with the outer key and the inner key, each as cast by the
    key type of its level. *)
Definition begins_with_keys (outer_type inner_type : DataType)
    (outer inner : str) (row : list value) : Prop :=
  exists v_outer v_inner rest,
    cast outer_type (PyStr outer) = Ok v_outer /\
    cast inner_type (PyStr inner) = Ok v_inner /\
    row = v_outer :: v_inner :: rest.

(** A set whose members are sets of tables. *)
Definition two_levels (tables : odict) : Prop :=
  Forall (fun m => exists s, m = MSet s /\
                             Forall is_table (values (_tables s)))
         (values tables).

End WithDataTypes.

End tableset.

(** ** Concrete configurations and tables used in the examples *)

Module fixtures.

Import number.

(** [Number()] with the sentinels [''], ['na'], ['n/a'], ['none'], ['null']
    and ['.']. *)
Definition en_US : Number :=
  {| _locale := u "en_US";
     null_values := [u ""; u "na"; u "n/a"; u "none"; u "null"; u "."] |}.

(** [Number(null_values=('%',))] *)
Definition percent_null : Number :=
  {| _locale := u "en_US"; null_values := [u "%"] |}.

Definition test_en (self : Number) (d : str) : bool :=
  test ascii_lower Babel.parse_decimal self d.

Definition cast_en (self : Number) (d : value) : result value :=
  cast ascii_lower Babel.parse_decimal self d.

(** Three data type instances, and [Text()]. *)
Inductive data_type := TextType | NumberType | BooleanType.

Definition data_type_eq_dec (a b : data_type) : {a = b} + {a <> b}.
Proof. decide equality. Defined.

Import tableset.

(** [Text().cast(d)] on text and on the null value: the text is trimmed and
    a null sentinel becomes null. The printed form that it gives to other
    values is not needed in the examples; booleans apart, they are kept. *)
Definition text_cast (d : value) : result value :=
  match d with
  | PyStr s =>
      let s := strip s in
      if str_in (ascii_lower s) (null_values en_US) then Ok PyNone
      else Ok (PyStr s)
  | PyBool b => Ok (PyStr (if b then u "True" else u "False"))
  | _ => Ok d
  end.

Definition bool_message : string :=
  "Can not convert value %s to bool for BooleanColumn.".

(** [Boolean().cast(d)] on booleans, on the null value and on text. *)
Definition boolean_cast (d : value) : result value :=
  match d with
  | PyBool _ | PyNone => Ok d
  | PyStr s =>
      let s := ascii_lower (strip (replace1 44%N [] s)) in
      if str_in s (null_values en_US) then Ok PyNone
      else if str_in s [u "yes"; u "y"; u "true"; u "t"] then Ok (PyBool true)
      else if str_in s [u "no"; u "n"; u "false"; u "f"] then Ok (PyBool false)
      else m <- format1 bool_message d ;; Raise (CastError m)
  | _ => m <- format1 bool_message d ;; Raise (CastError m)
  end.

(** The cast of each data type instance. *)
Definition data_cast (ty : data_type) (d : value) : result value :=
  match ty with
  | TextType => text_cast d
  | NumberType => cast_en en_US d
  | BooleanType => boolean_cast d
  end.

Definition schema_names : list str := [u "county"; u "population"].
Definition schema_types : list data_type := [TextType; NumberType].

Definition table_of (rows : list (list value)) : Table data_type :=
  {| table_column_names := schema_names;
     table_column_types := schema_types;
     table_rows := rows |}.

Definition CA_2014 := table_of [[PyStr (u "Alameda"); PyInt 10]; [PyStr (u "Kern"); PyInt 5]].
Definition NY_2014 := table_of [[PyStr (u "Kings"); PyInt 20]].
Definition CA_2015 := table_of [[PyStr (u "Alameda"); PyInt 11]; [PyStr (u "Kern"); PyInt 6]].
Definition NY_2015 := table_of [[PyStr (u "Kings"); PyInt 22]; [PyStr (u "Erie"); PyInt 3]].

(** A table whose second column has another name. *)
Definition other_names : Table data_type :=
  {| table_column_names := [u "county"; u "people"];
     table_column_types := schema_types;
     table_rows := [] |}.

Definition states_2014 : odict data_type :=
  [(u "CA", MTable CA_2014); (u "NY", MTable NY_2014)].
Definition states_2015 : odict data_type :=
  [(u "CA", MTable CA_2015); (u "NY", MTable NY_2015)].

Definition set_of (key_name : str) (key_type : data_type)
    (group : odict data_type) : TableSet data_type :=
  mkTableSet key_name key_type CA_2014 schema_types schema_names group.

(** [TableSet(states_2014, key_name='state', key_type=Number())] *)
Definition by_state_2014 := set_of (u "state") NumberType states_2014.
Definition by_state_2015 :=
  mkTableSet (u "state") NumberType CA_2015 schema_types schema_names
             states_2015.

Definition years : odict data_type :=
  [(u "2014", MSet by_state_2014); (u "2015", MSet by_state_2015)].

(** [TableSet(years, key_name='year')] *)
Definition by_year := set_of (u "year") TextType years.

(** A sum over integer cells. *)
Fixpoint sum_cells (cells : list value) (total : Z) : result value :=
  match cells with
  | [] => Ok (PyInt total)
  | PyInt n :: rest => sum_cells rest (total + n)
  | _ :: _ => Raise (TypeError (Msg "unsupported operand type(s) for +"))
  end.

Definition Sum : Aggregation data_type :=
  {| get_aggregate_column_type := fun _ => NumberType;
     run := fun c => sum_cells (column_values c) 0 |}.

Definition total_population : list (aggregation_spec data_type) :=
  [(u "population", Sum, u "total_population")].

(** [table.limit(n)] *)
Definition limit (n : nat) (t : Table data_type)
  : result (Member data_type) :=
  Ok (MTable {| table_column_names := table_column_names t;
                table_column_types := table_column_types t;
                table_rows := firstn n (table_rows t) |}).

(** [by_state_2014.limit(1)] *)
Definition limited_2014 : TableSet data_type :=
  mkTableSet (u "state") TextType
    (table_of [[PyStr (u "Alameda"); PyInt 10]]) schema_types schema_names
    [(u "CA", MTable (table_of [[PyStr (u "Alameda"); PyInt 10]]));
     (u "NY", MTable (table_of [[PyStr (u "Kings"); PyInt 20]]))].

(** The same groups under key type [Text()]. *)
Definition by_state_text_2014 := set_of (u "state") TextType states_2014.
Definition by_state_text_2015 :=
  mkTableSet (u "state") TextType CA_2015 schema_types schema_names
             states_2015.

Definition years_text : odict data_type :=
  [(u "2014", MSet by_state_text_2014); (u "2015", MSet by_state_text_2015)].

Definition by_year_text := set_of (u "year") TextType years_text.

(** A set of one table under the key ['NA'], with key type [Text()]. *)
Definition by_NA := set_of (u "state") TextType [(u "NA", MTable CA_2014)].

(** [by_year_text.aggregate([('population', Sum(), 'total_population')])] *)
Definition totals_by_year : Table data_type :=
  {| table_column_names := [u "year"; u "state"; u "total_population"];
     table_column_types := [TextType; TextType; NumberType];
     table_rows :=
       [[PyStr (u "2014"); PyStr (u "CA"); PyDecimal (Finite false 15 0)];
        [PyStr (u "2014"); PyStr (u "NY"); PyDecimal (Finite false 20 0)];
        [PyStr (u "2015"); PyStr (u "CA"); PyDecimal (Finite false 17 0)];
        [PyStr (u "2015"); PyStr (u "NY"); PyDecimal (Finite false 25 0)]] |}.

End fixtures.

(** ** What the spec says of the percent sign in [test] *)

Module spec.

(** One leading and one trailing occurrence of [c] are removed, if there. *)
Definition strip_single (c : N) (s : str) : str :=
  let s1 := match s with
            | c' :: r => if N.eqb c' c then r else s
            | [] => []
            end in
  match rev s1 with
  | c' :: r => if N.eqb c' c then rev r else s1
  | [] => []
  end.

(** Step 2 of the spec's procedure for [test], after step 1. *)
Definition percent_stripped_once (d : str) : str :=
  strip_single 37 (strip d).

End spec.

(** ** Paths, as [posixpath] has them *)

Module posixpath.

Definition sep : N := 47%N.

Definition startswith_sep (s : str) : bool :=
  match s with
  | c :: _ => N.eqb c sep
  | [] => false
  end.

Definition endswith_sep (s : str) : bool := startswith_sep (rev s).

(** [os.path.join(a, b)] *)
Definition join (a b : str) : str :=
  if startswith_sep b then b
  else
    match a with
    | [] => a ++ b
    | _ :: _ => if endswith_sep a then a ++ b else a ++ sep :: b
    end.

(** The code points of [s] up to its first separator. *)
Fixpoint before_sep (s : str) : str :=
  match s with
  | [] => []
  | c :: r => if N.eqb c sep then [] else c :: before_sep r
  end.

(** [os.path.split(p)[1]]: what follows the last separator. *)
Definition tail (p : str) : str := rev (before_sep (rev p)).

(** A text without a separator. *)
Definition no_sep (s : str) : Prop :=
  forallb (fun c => negb (N.eqb c sep)) s = true.

End posixpath.

(** ** The members of a proxied call, and the CSV directory of a set *)

Module tableset_csv.

Import tableset.

(** What [from_csv] raises: its own [IOError], or an exception of the
    kinds above. *)
Inductive error :=
| IOError (m : message)
| Exception (e : exn).

Inductive outcome (A : Type) :=
| Returned (a : A)
| Raised (e : error).

Arguments Returned {A} a.
Arguments Raised {A} e.

Section WithFilesystem.

Variable DataType : Type.
Variable DataType_eq_dec : forall a b : DataType, {a = b} + {a <> b}.
Variable Text : DataType.

(** Line 54 of [TableMethodProxy.__call__]: the method of the proxied name,
    called on a member of either kind. *)
Definition proxied (method : Table DataType -> result (Member DataType))
    (value : Member DataType) : result (Member DataType) :=
  match value with
  | MTable t => method t
  | MSet s =>
      s' <- TableMethodProxy_call DataType_eq_dec Text method s ;;
      Ok (MSet s')
  end.

(** [TableSet.get_column_types] and [TableSet.get_column_names] *)
Definition TableSet_get_column_types (self : TableSet DataType)
  : list DataType := _column_types self.

Definition TableSet_get_column_names (self : TableSet DataType)
  : list str := _column_names self.

Definition is_set (m : Member DataType) : Prop := exists s, m = MSet s.

(** [column_info]: a [TypeTester], or a sequence of (name, type) pairs. *)
Variable TypeTester : Type.

Inductive column_info :=
| Tester (t : TypeTester)
| Columns (pairs : list (str * DataType)).

(** The file system and the reader of one file: [os.path.isdir], [glob] and
    [Table.from_csv(path, column_info, header=header)]. *)
Variable isdir : str -> bool.
Variable glob : str -> list str.
Variable Table_from_csv :
  str -> column_info -> bool -> outcome (Table DataType).

(** Line 158: [os.path.split(path)[1].strip('.csv')]. *)
Definition table_name (path : str) : str :=
  strip_chars (u ".csv") (posixpath.tail path).

(** Line 187: [os.path.join(dir_path, '%s.csv' % name)]. *)
Definition csv_path (dir_path name : str) : str :=
  posixpath.join dir_path (name ++ u ".csv").

(** Lines 157-166: the loop over the paths that [glob] found. *)
Fixpoint load_loop (use_inference header : bool) (paths : list str)
    (info : column_info) (has_inferred_columns : bool)
    (tables : odict DataType) : outcome (odict DataType) :=
  match paths with
  | [] => Returned tables
  | path :: rest =>
      let name := table_name path in
      match Table_from_csv path info header with
      | Raised e => Raised e
      | Returned table =>
          if use_inference && negb has_inferred_columns then
            load_loop use_inference header rest
              (Columns (combine (get_column_names table)
                                (get_column_types table)))
              true (odict_set name (MTable table) tables)
          else
            load_loop use_inference header rest info has_inferred_columns
              (odict_set name (MTable table) tables)
      end
  end.

Definition headers_message : message :=
  Msg "Can not apply TypeTester to a CSV without headers.".
Definition directory_message : message :=
  Msg "Specified path doesn't exist or isn't a directory.".

(** [TableSet.from_csv(dir_path, column_info, header=True)] *)
Definition from_csv (dir_path : str) (info : column_info) (header : bool)
  : outcome (TableSet DataType) :=
  let use_inference :=
    match info with Tester _ => true | Columns _ => false end in
  if use_inference && negb header then
    Raised (Exception (ValueError headers_message))
  else if negb (isdir dir_path) then Raised (IOError directory_message)
  else
    match load_loop use_inference header
            (glob (posixpath.join dir_path (u "*.csv"))) info false [] with
    | Raised e => Raised e
    | Returned tables =>
        match TableSet_init DataType_eq_dec Text tables None None with
        | Ok self => Returned self
        | Raise e => Raised (Exception e)
        end
    end.

End WithFilesystem.

End tableset_csv.

(** ** More tables, methods and a directory for the examples *)

Module fixtures_more.

Import tableset tableset_csv fixtures.

(** A table method that raises on a table of fewer than two rows. *)
Definition two_rows (t : Table data_type) : result (Member data_type) :=
  if Nat.ltb (List.length (table_rows t)) 2
  then Raise (ValueError (Msg "too few rows"))
  else Ok (MTable t).

(** A set that holds a table and a set. *)
Definition mixed : odict data_type :=
  [(u "CA", MTable CA_2014); (u "2015", MSet by_state_2015)].

Definition by_mixed := set_of (u "group") TextType mixed.

(** An aggregation of a column that the tables do not have. *)
Definition total_area : list (aggregation_spec data_type) :=
  [(u "population", Sum, u "total_population");
   (u "area", Sum, u "total_area")].

(** A directory [data] that holds [ca.csv] and [ny.csv], and a reader that
    returns the 2014 tables for them. *)
Definition data_isdir (path : str) : bool :=
  if str_eq_dec path (u "data") then true else false.

Definition data_glob (pattern : str) : list str :=
  if str_eq_dec pattern (u "data/*.csv")
  then [u "data/CA.csv"; u "data/NY.csv"]
  else [].

Definition data_reader (path : str) (info : column_info data_type unit)
    (header : bool) : outcome (Table data_type) :=
  if str_eq_dec path (u "data/CA.csv") then Returned CA_2014
  else if str_eq_dec path (u "data/NY.csv") then Returned NY_2014
  else Raised (IOError (Msg "No such file or directory")).

Definition data_from_csv :=
  from_csv data_type_eq_dec TextType data_isdir data_glob data_reader.

Definition loaded : TableSet data_type :=
  set_of (u "group") TextType states_2014.

(** [by_state_text_2014.aggregate([('population', Sum(),
    'total_population')])] *)
Definition totals_2014 : Table data_type :=
  {| table_column_names := [u "state"; u "total_population"];
     table_column_types := [TextType; NumberType];
     table_rows :=
       [[PyStr (u "CA"); PyDecimal (Finite false 15 0)];
        [PyStr (u "NY"); PyDecimal (Finite false 20 0)]] |}.

Definition explicit_columns : column_info data_type unit :=
  Columns unit (combine schema_names schema_types).

End fixtures_more.

(** * Properties *)

(** ** Stripping *)

Section Strip.

Variable p : N -> bool.

Lemma lstrip_by_split (s : str) :
  exists pre, s = pre ++ lstrip_by p s /\ forallb p pre = true.
Proof.
  induction s as [|c s IH]; simpl.
  - exists []; split; reflexivity.
  - destruct (p c) eqn:Hc.
    + destruct IH as [pre [E F]]. exists (c :: pre); simpl.
      rewrite Hc, F. split; [f_equal; exact E | reflexivity].
    + exists []; split; reflexivity.
Qed.

Lemma lstrip_by_head (s : str) :
  match lstrip_by p s with
  | [] => True
  | c :: _ => p c = false
  end.
Proof.
  induction s as [|c s IH]; simpl; [exact I|].
  destruct (p c) eqn:Hc; [exact IH | exact Hc].
Qed.

Lemma rstrip_by_split (s : str) :
  exists post, s = rstrip_by p s ++ post /\ forallb p post = true.
Proof.
  unfold rstrip_by.
  destruct (lstrip_by_split (rev s)) as [pre [E F]].
  exists (rev pre). split.
  - rewrite <- rev_app_distr, <- E, rev_involutive. reflexivity.
  - rewrite forallb_forall in *. intros x Hx. apply F.
    apply in_rev. exact Hx.
Qed.

Lemma rstrip_by_last (s : str) (d : N) :
  rstrip_by p s = [] \/ p (last (rstrip_by p s) d) = false.
Proof.
  unfold rstrip_by.
  pose proof (lstrip_by_head (rev s)) as H.
  destruct (lstrip_by p (rev s)) as [|c r]; [left; reflexivity|].
  right. simpl. rewrite last_last. exact H.
Qed.

Lemma strip_by_split (s : str) :
  exists pre post,
    s = pre ++ strip_by p s ++ post /\
    forallb p pre = true /\ forallb p post = true.
Proof.
  unfold strip_by.
  destruct (lstrip_by_split s) as [pre [E F]].
  destruct (rstrip_by_split (lstrip_by p s)) as [post [E' F']].
  exists pre, post. repeat split; try assumption.
  rewrite <- E'. exact E.
Qed.

Lemma strip_by_plain_ends (s : str) : plain_ends p (strip_by p s) = true.
Proof.
  unfold strip_by.
  pose proof (lstrip_by_head s) as Hh.
  destruct (rstrip_by_split (lstrip_by p s)) as [post [E _]].
  set (l := lstrip_by p s) in *.
  destruct (rstrip_by p l) as [|c r] eqn:Hr; [reflexivity|].
  unfold plain_ends.
  destruct (rstrip_by_last l c) as [H|H]; [congruence|].
  rewrite Hr in H. rewrite H.
  rewrite E in Hh. simpl in Hh. rewrite Hh. reflexivity.
Qed.

Lemma rstrip_by_plain (s : str) (d : N) :
  s = [] \/ p (last s d) = false -> rstrip_by p s = s.
Proof.
  intros [->|H]; [reflexivity|].
  destruct s as [|c r] using rev_ind; [reflexivity|].
  rewrite last_last in H. unfold rstrip_by.
  rewrite rev_app_distr. simpl. rewrite H. simpl.
  rewrite rev_involutive. reflexivity.
Qed.

Lemma strip_by_plain (s : str) : plain_ends p s = true -> strip_by p s = s.
Proof.
  unfold plain_ends, strip_by. destruct s as [|c r]; [reflexivity|].
  intros H. apply andb_prop in H. destruct H as [H1 H2].
  apply negb_true_iff in H1, H2.
  change (lstrip_by p (c :: r)) with (if p c then lstrip_by p r else c :: r).
  rewrite H1. apply rstrip_by_plain with (d := c). right. exact H2.
Qed.

End Strip.

Lemma forallb_eqb_repeat (c : N) (l : str) :
  forallb (fun x => mem x [c]) l = true -> l = repeat c (List.length l).
Proof.
  induction l as [|x l IH]; simpl; [reflexivity|].
  intros H. apply andb_prop in H. destruct H as [Hx Hl].
  rewrite orb_false_r in Hx. apply N.eqb_eq in Hx. subst x.
  f_equal. apply IH. exact Hl.
Qed.

(** ** [Number.test] and [Number.cast] *)

Section NumberFacts.

Import number.

Variable lower : str -> str.
Variable parse_decimal : str -> str -> option Decimal.

Local Abbreviation test := (number.test lower parse_decimal).
Local Abbreviation cast := (number.cast lower parse_decimal).

Lemma str_in_true (s : str) (l : list str) : str_in s l = true <-> In s l.
Proof.
  unfold str_in. destruct (in_dec str_eq_dec s l); split; intros H;
    try reflexivity; try assumption; try discriminate; contradiction.
Qed.

(** A stripping round leaves unchanged a text whose ends it would not
    touch. *)
Lemma currency_rounds_plain (symbols : list str) (d : str) :
  Forall (fun symbol => plain_ends (fun c => mem c symbol) d = true) symbols ->
  fold_left (fun d symbol => strip_chars symbol d) symbols d = d.
Proof.
  induction symbols as [|symbol rest IH]; simpl; intros H; [reflexivity|].
  inversion H as [|? ? H1 H2]; subst.
  unfold strip_chars at 2. rewrite (strip_by_plain _ _ H1).
  apply IH. exact H2.
Qed.

Lemma plain_ends_weaken (p q : N -> bool) (s : str) :
  (forall c, p c = false -> q c = false) ->
  plain_ends p s = true -> plain_ends q s = true.
Proof.
  intros Hpq. unfold plain_ends. destruct s as [|c r]; [reflexivity|].
  intros H. apply andb_prop in H. destruct H as [H1 H2].
  apply negb_true_iff in H1, H2.
  rewrite (Hpq _ H1), (Hpq _ H2). reflexivity.
Qed.

Lemma decorated_symbol (c : N) (symbol : str) :
  In symbol CURRENCY_SYMBOLS -> decorated c = false -> mem c symbol = false.
Proof.
  unfold decorated. intros Hin H. apply orb_false_elim in H.
  destruct H as [_ H].
  destruct (mem c symbol) eqn:E; [|reflexivity].
  rewrite <- H. symmetry. apply existsb_exists. exists symbol. auto.
Qed.

Lemma test_strip_plain (d : str) :
  plain_ends decorated (strip d) = true -> test_strip d = strip d.
Proof.
  intros H. unfold test_strip, percent_stripped.
  assert (Hp : strip_chars (u "%") (strip d) = strip d).
  { apply strip_by_plain. revert H. apply plain_ends_weaken.
    unfold decorated. intros c Hc. apply orb_false_elim in Hc. tauto. }
  rewrite Hp. apply currency_rounds_plain.
  apply Forall_forall. intros symbol Hin.
  revert H. apply plain_ends_weaken. intros c. apply decorated_symbol, Hin.
Qed.

(** Among the values given here, which all print without raising, and
    apart from tuples, whatever [cast] raises is a [CastError]. *)
Lemma cast_raises_CastError (self : Number) (d : value) (e : exn) :
  (forall items, d <> PyTuple items) ->
  cast self d = Raise e -> exists m, e = CastError m.
Proof.
  intros Hd. destruct d; simpl; try discriminate.
  - intros H. injection H as <-. eexists; reflexivity.
  - destruct (str_in _ _); [discriminate|].
    unfold cast_parse. simpl. destruct (parse_decimal _ _); [discriminate|].
    simpl. intros H. injection H as <-. eexists; reflexivity.
  - exfalso. apply (Hd items). reflexivity.
  - unfold cast_parse. simpl. intros H. injection H as <-.
    eexists; reflexivity.
Qed.

(** C4: for every floating-point input [x], [Number.cast(x)] raises
    [CastError], whatever the value of [x]. *)
Theorem cast_float_raises_CastError (self : Number) (x : spec_float) :
  cast self (PyFloat x) = Raise (CastError (Msg float_message)).
Proof. reflexivity. Qed.

(** C5, as amended: a text whose trimmed, lower-cased form is a configured
    null sentinel is cast to the null value; [test] returns true for it when
    the trimmed text neither begins nor ends with a percent sign or a
    currency symbol. *)
Theorem null_sentinel_cast_None_test_true (self : Number) (s : str) :
  In (lower (strip s)) (null_values self) ->
  cast self (PyStr s) = Ok PyNone /\
  (plain_ends decorated (strip s) = true -> test self s = true).
Proof.
  intros Hin. apply str_in_true in Hin. split.
  - simpl. rewrite Hin. reflexivity.
  - intros Hplain. unfold number.test.
    rewrite (test_strip_plain _ Hplain), Hin. reflexivity.
Qed.

(** C6, as amended: in [test], after the whitespace is trimmed, every leading
    and every trailing percent sign is stripped, and the currency rounds run
    on what is left. *)
Theorem test_strips_every_percent_sign (d : str) :
  (exists a b,
      strip d = repeat 37%N a ++ percent_stripped d ++ repeat 37%N b) /\
  plain_ends (fun c => mem c (u "%")) (percent_stripped d) = true /\
  test_strip d =
    fold_left (fun d symbol => strip_chars symbol d) CURRENCY_SYMBOLS
              (percent_stripped d).
Proof.
  split; [|split].
  - unfold percent_stripped, strip_chars.
    destruct (strip_by_split (fun c => mem c (u "%")) (strip d))
      as [pre [post [E [F1 F2]]]].
    exists (List.length pre), (List.length post).
    change (u "%") with [37%N] in *.
    rewrite <- (forallb_eqb_repeat _ _ F1), <- (forallb_eqb_repeat _ _ F2).
    exact E.
  - apply strip_by_plain_ends.
  - reflexivity.
Qed.

(** C9: [cast] on a tuple of two values lets a [TypeError] out: the handler
    formats its message with [%], which takes the tuple for the argument
    list. *)
Theorem cast_pair_raises_TypeError (self : Number) :
  cast self (PyTuple [PyInt 1; PyInt 2]) =
  Raise (TypeError
           (Msg "not all arguments converted during string formatting")).
Proof. reflexivity. Qed.

End NumberFacts.

Section NumberExamples.

Import number fixtures.

(** C3: for text that is not a null sentinel, [cast] hands the trimmed text,
    percent signs and currency symbols included, to the locale-aware parse;
    so under en_US [test] accepts "45%" and "$1,234.00" while [cast] raises
    [CastError] on them. *)
Theorem cast_does_not_strip_symbols :
  (forall lower parse_decimal (self : Number) (s : str),
      ~ In (lower (strip s)) (null_values self) ->
      cast lower parse_decimal self (PyStr s) =
      match parse_decimal (strip s) (_locale self) with
      | Some x => Ok (PyDecimal x)
      | None =>
          Raise (CastError (MsgFormat parse_message (PyStr (strip s))))
      end) /\
  (test_en en_US (u "45%") = true /\
   cast_en en_US (PyStr (u "45%")) =
   Raise (CastError (MsgFormat parse_message (PyStr (u "45%"))))) /\
  (test_en en_US (u "$1,234.00") = true /\
   cast_en en_US (PyStr (u "$1,234.00")) =
   Raise (CastError (MsgFormat parse_message (PyStr (u "$1,234.00"))))).
Proof.
  split; [|split; split; vm_compute; reflexivity].
  intros lower parse_decimal self s Hnot. simpl.
  destruct (str_in (lower (strip s)) (null_values self)) eqn:E.
  - exfalso. apply Hnot. apply str_in_true. exact E.
  - unfold cast_parse. simpl. destruct (parse_decimal _ _); reflexivity.
Qed.

Lemma cast_does_not_strip_symbols_witness :
  ~ In (ascii_lower (strip (u " 45% "))) (null_values en_US) /\
  cast_en en_US (PyStr (u " 45% ")) =
  Raise (CastError (MsgFormat parse_message (PyStr (u "45%")))).
Proof.
  assert (H : ~ In (ascii_lower (strip (u " 45% "))) (null_values en_US)).
  { intros H. apply (str_in_true _ _) in H. vm_compute in H. discriminate H. }
  split; [exact H|].
  exact (proj1 cast_does_not_strip_symbols
               ascii_lower Babel.parse_decimal en_US (u " 45% ") H).
Defined.

Lemma null_sentinel_cast_None_test_true_witness :
  In (ascii_lower (strip (u " N/A "))) (null_values en_US) /\
  cast_en en_US (PyStr (u " N/A ")) = Ok PyNone /\
  test_en en_US (u " N/A ") = true.
Proof.
  assert (H : In (ascii_lower (strip (u " N/A "))) (null_values en_US)).
  { apply str_in_true. vm_compute. reflexivity. }
  split; [exact H|].
  destruct (null_sentinel_cast_None_test_true
              ascii_lower Babel.parse_decimal en_US (u " N/A ") H) as [C T].
  split; [exact C | apply T; vm_compute; reflexivity].
Defined.

(** C5 fails as stated: with the configured sentinel "%", the text "%" is
    cast to the null value, yet [test] strips the percent sign before it
    looks for a sentinel and returns false. *)
Lemma null_sentinel_percent_test_false :
  In (ascii_lower (strip (u "%"))) (null_values percent_null) /\
  cast_en percent_null (PyStr (u "%")) = Ok PyNone /\
  test_en percent_null (u "%") = false.
Proof.
  split; [left; reflexivity|]. split; vm_compute; reflexivity.
Qed.

(** C6 fails as stated: for "50%%" the percent step of [test] removes both
    percent signs, not one; the text that is parsed is "50", and [test]
    returns true. *)
Lemma double_percent_both_stripped :
  percent_stripped (u "50%%") = u "50" /\
  spec.percent_stripped_once (u "50%%") = u "50%" /\
  percent_stripped (u "50%%") <> spec.percent_stripped_once (u "50%%") /\
  test_strip (u "50%%") = u "50" /\
  test_en en_US (u "50%%") = true /\
  Babel.parse_decimal (u "50%") (u "en_US") = None.
Proof.
  repeat split; try (vm_compute; reflexivity).
  vm_compute. discriminate.
Qed.

End NumberExamples.

(** ** [TableSet] *)

Section TableSetFacts.

Import tableset.

Variable DataType : Type.
Variable DataType_eq_dec : forall a b : DataType, {a = b} + {a <> b}.
Variable Text : DataType.

Local Abbreviation TableSet_init := (tableset.TableSet_init DataType_eq_dec Text).
Local Abbreviation check_members := (tableset.check_members DataType_eq_dec).
Local Abbreviation TableMethodProxy_call :=
  (tableset.TableMethodProxy_call DataType_eq_dec Text).
Local Abbreviation odict := (tableset.odict DataType).

Lemma check_members_ok (sample : Table DataType) (group : odict) :
  Forall (same_schema sample) group ->
  check_members (get_column_types sample) (get_column_names sample) group
  = Ok tt.
Proof.
  induction 1 as [|[k m] rest [Ht Hn] _ IH]; simpl; [reflexivity|].
  simpl in Ht, Hn.
  destruct (types_eq_dec _ _ _); [|contradiction].
  destruct (names_eq_dec _ _); [|contradiction].
  exact IH.
Qed.

Lemma check_members_mismatch (sample : Table DataType) (group : odict) :
  Exists (fun kv => ~ same_schema sample kv) group ->
  (check_members (get_column_types sample) (get_column_names sample) group
   = Raise (ValueError types_message) /\
   Exists (fun kv => member_column_types (snd kv) <> get_column_types sample)
          group) \/
  (check_members (get_column_types sample) (get_column_names sample) group
   = Raise (ValueError names_message) /\
   Exists (fun kv => member_column_names (snd kv) <> get_column_names sample)
          group).
Proof.
  induction group as [|[k m] rest IH]; intros H; [inversion H|].
  simpl.
  destruct (types_eq_dec _ _ _) as [Et|Nt].
  - destruct (names_eq_dec _ _) as [En|Nn].
    + inversion H as [? ? Hbad|? ? Hrest]; subst.
      * exfalso. apply Hbad. split; assumption.
      * destruct (IH Hrest) as [[E X]|[E X]]; [left|right];
          (split; [exact E | apply Exists_cons_tl; exact X]).
    + right. split; [reflexivity | apply Exists_cons_hd; exact Nn].
  - left. split; [reflexivity | apply Exists_cons_hd; exact Nt].
Qed.

(** A set that was constructed has a member. *)
Lemma TableSet_init_nonempty (group : odict) key_name key_type self :
  TableSet_init group key_name key_type = Ok self -> _tables self <> [].
Proof.
  unfold tableset.TableSet_init.
  destruct (find_sample group) as [sample|e] eqn:Hs; simpl; [|discriminate].
  destruct (tableset.check_members _ _ _ _); simpl; [|discriminate].
  intros H. injection H as <-. simpl. intros ->. discriminate Hs.
Qed.

(** C2: when the sample table of a group resolves, a member whose column
    names or column types differ from the sample table's makes the
    constructor raise the error for types or the error for names, and that
    aspect does differ in some member; when every member matches, the
    constructor succeeds and iteration gives the keys of the group in their
    order. *)
Theorem init_checks_member_schemas (group : odict) (key_name : option str)
    (key_type : option DataType) (sample : Table DataType) :
  find_sample group = Ok sample ->
  (Exists (fun kv => ~ same_schema sample kv) group ->
   (TableSet_init group key_name key_type = Raise (ValueError types_message)
    /\ Exists (fun kv => member_column_types (snd kv)
                         <> get_column_types sample) group) \/
   (TableSet_init group key_name key_type = Raise (ValueError names_message)
    /\ Exists (fun kv => member_column_names (snd kv)
                         <> get_column_names sample) group)) /\
  (Forall (same_schema sample) group ->
   exists self,
     TableSet_init group key_name key_type = Ok self /\
     TableSet_iter self = keys group /\
     _tables self = group).
Proof.
  intros Hs. unfold tableset.TableSet_init. rewrite Hs. simpl. split.
  - intros H. destruct (check_members_mismatch H) as [[E X]|[E X]];
      [left|right]; rewrite E; split; auto.
  - intros H. rewrite (check_members_ok H). simpl.
    eexists. split; [reflexivity|]. split; reflexivity.
Qed.

(** C7, as amended: constructing a [TableSet] from a group with no members
    raises the [IndexError] of the sample-table lookup,
    "list index out of range". *)
Theorem init_empty_group_raises_IndexError (key_name : option str)
    (key_type : option DataType) :
  TableSet_init [] key_name key_type
  = Raise (IndexError (Msg "list index out of range")).
Proof. reflexivity. Qed.

(** C10: the set that a proxied operation returns has the key name of the
    original and the default [Text()] as its key type, whatever the key type
    of the original was. *)
Theorem proxy_keeps_key_name_resets_key_type
    (method : Table DataType -> result (Member DataType))
    (self new_set : TableSet DataType) :
  TableMethodProxy_call method self = Ok new_set ->
  _key_name new_set = _key_name self /\ _key_type new_set = Text.
Proof.
  destruct self as [kn kt st cts cns tables]. simpl.
  destruct (proxy_loop _ _ _) as [groups|e]; simpl; [|discriminate].
  unfold tableset.TableSet_init.
  destruct (find_sample groups); simpl; [|discriminate].
  destruct (tableset.check_members _ _ _ _); simpl; [|discriminate].
  intros H. injection H as <-. split; reflexivity.
Qed.

Lemma tables_loop_no_aggregations (items : odict)
    (output : list (list value)) :
  tables_loop items [] output
  = Ok (output ++ map (fun kv => [PyStr (fst kv)]) items).
Proof.
  revert output. induction items as [|[k m] rest IH]; intros output; simpl.
  - rewrite app_nil_r. reflexivity.
  - rewrite IH, <- app_assoc. reflexivity.
Qed.

(** Assignment into an [OrderedDict] keeps what holds of every value. *)
Lemma odict_set_values (P : Member DataType -> Prop) (k : str)
    (v : Member DataType) (d : odict) :
  P v -> Forall P (values d) -> Forall P (values (odict_set k v d)).
Proof.
  intros Hv. induction d as [|[k' v'] rest IH]; simpl; intros H.
  - constructor; [exact Hv | constructor].
  - inversion H as [|? ? H1 H2]; subst.
    destruct (str_eq_dec k k'); simpl; constructor; auto.
Qed.

Lemma odict_set_nonempty (k : str) (v : Member DataType) (d : odict) :
  odict_set k v d <> [].
Proof.
  destruct d as [|[k' v'] rest]; simpl; [discriminate|].
  destruct (str_eq_dec k k'); discriminate.
Qed.

Lemma proxy_loop_values (P : Member DataType -> Prop)
    (call : Member DataType -> result (Member DataType)) :
  forall (items groups : odict),
    Forall (fun m => exists r, call m = Ok r /\ P r) (values items) ->
    Forall P (values groups) ->
    exists groups',
      proxy_loop call items groups = Ok groups' /\
      Forall P (values groups') /\
      (items <> [] -> groups' <> []).
Proof.
  induction items as [|[k m] rest IH]; simpl; intros groups Hi Hg.
  - exists groups. repeat split; auto; intros H; contradiction.
  - inversion Hi as [|? ? [r [Er Pr]] Hrest]; subst. rewrite Er. simpl.
    destruct (IH (odict_set k r groups) Hrest
                 (@odict_set_values P k r groups Pr Hg))
      as [groups' [E [F _]]].
    exists groups'. repeat split; auto. intros _ ->.
    clear - E. revert E.
    generalize (odict_set_nonempty k r groups).
    generalize (odict_set k r groups).
    induction rest as [|[k' m'] rest' IH']; simpl; intros g Hg E.
    + injection E as ->. contradiction.
    + destruct (call m'); simpl in E; [|discriminate].
      apply (IH' _ (odict_set_nonempty _ _ _) E).
Qed.

(** A table method that succeeds with a table whose schema depends on the
    schema of its input alone ([limit], [where], [order_by], [select]...)
    makes the proxied call on a set of tables return. *)
Lemma proxy_on_tables_returns
    (method : Table DataType -> result (Member DataType))
    (names : list str) (types : list DataType) (self : TableSet DataType) :
  _tables self <> [] ->
  Forall (fun m => exists t t',
              m = MTable t /\ method t = Ok (MTable t') /\
              table_column_names t' = names /\
              table_column_types t' = types)
         (values (_tables self)) ->
  exists new_set,
    TableMethodProxy_call method self = Ok new_set /\
    _key_name new_set = _key_name self /\ _key_type new_set = Text /\
    _column_names new_set = names /\ _column_types new_set = types.
Proof.
  destruct self as [kn kt st cts cns tables]. simpl. intros Hne Hall.
  set (P := fun m : Member DataType =>
              exists t', m = MTable t' /\ table_column_names t' = names /\
                         table_column_types t' = types).
  destruct (@proxy_loop_values P
              (fun value =>
                 match value with
                 | MTable t => method t
                 | MSet s =>
                     s' <- tableset.TableMethodProxy_call
                             DataType_eq_dec Text method s ;; Ok (MSet s')
                 end) tables [])
    as [groups [E [F Hg]]].
  - eapply Forall_impl; [|exact Hall].
    intros m [t [t' [-> [Em [Hn Ht]]]]]. exists (MTable t'). split; auto.
    exists t'. auto.
  - constructor.
  - rewrite E. simpl. specialize (Hg Hne).
    destruct groups as [|[k m] rest]; [contradiction|].
    pose proof F as F0.
    inversion F as [|? ? [t' [Em [Hn Ht]]] _]. simpl in Em. subst m.
    assert (Hsame : Forall (same_schema t') ((k, MTable t') :: rest)).
    { clear - F0 Hn Ht. unfold values in F0. rewrite Forall_map in F0.
      eapply Forall_impl; [|exact F0].
      intros [k' m'] [t'' [Em [Hn' Ht']]]. simpl in Em. subst m'.
      split; simpl; unfold get_column_types, get_column_names; congruence. }
    pose proof (check_members_ok Hsame) as Hc.
    unfold tableset.TableSet_init, find_sample, first_value.
    cbn [values map snd bind resolve_sample].
    rewrite Hc. cbn [bind].
    eexists. split; [reflexivity|]. simpl. auto.
Qed.

Section Aggregations.

Variable aggregations : list (aggregation_spec DataType).

Lemma schema_loop_spec (sample : Table DataType) :
  forall (aggs : list (aggregation_spec DataType)) names types names' types',
    schema_loop sample aggs names types = Ok (names', types') ->
    exists agg_types,
      names' = names ++ map snd aggs /\
      types' = types ++ agg_types /\
      Forall2 (column_typed sample) agg_types aggs.
Proof.
  induction aggs as [|[[cn a] new] rest IH]; simpl; intros names types n' t' H.
  - injection H as <- <-. exists []. rewrite !app_nil_r. auto.
  - destruct (columns sample cn) as [c|e] eqn:Hc; simpl in H; [|discriminate].
    destruct (IH _ _ _ _ H) as [ats [-> [-> F]]].
    exists (get_aggregate_column_type a c :: ats).
    rewrite <- !app_assoc. simpl. repeat split.
    constructor; [|exact F]. exists c. simpl. auto.
Qed.

Lemma row_loop_acc (table : Member DataType) :
  forall (aggs : list (aggregation_spec DataType)) row,
    row_loop table aggs row
    = (cells <- row_loop table aggs [] ;; Ok (row ++ cells)).
Proof.
  induction aggs as [|[[cn a] new] rest IH]; simpl; intros row.
  - rewrite app_nil_r. reflexivity.
  - destruct (member_columns table cn) as [c|e]; simpl; [|reflexivity].
    destruct (Column_aggregate c a) as [v|e]; simpl; [|reflexivity].
    rewrite (IH (row ++ [v])), (IH [v]).
    destruct (row_loop table rest []) as [cells|e]; simpl; [|reflexivity].
    rewrite <- app_assoc. reflexivity.
Qed.

Lemma tables_loop_spec :
  forall (items : odict) output output',
    tables_loop items aggregations output = Ok output' ->
    exists rows,
      output' = output ++ rows /\
      Forall2 (member_row aggregations) rows items.
Proof.
  induction items as [|[k m] rest IH]; simpl; intros output output' H.
  - injection H as <-. exists []. rewrite app_nil_r. auto.
  - rewrite row_loop_acc in H.
    destruct (row_loop m aggregations []) as [cells|e] eqn:Hc; simpl in H;
      [|discriminate].
    destruct (IH _ _ H) as [rows [-> F]].
    exists ((PyStr k :: cells) :: rows). rewrite <- app_assoc. split; auto.
    constructor; [|exact F]. exists cells. auto.
Qed.

Lemma aggregate_tables_spec (s : TableSet DataType) names types rows :
  _tables s <> [] ->
  Forall (@is_table DataType) (values (_tables s)) ->
  _aggregate s aggregations = Ok (names, types, rows) ->
  exists agg_types,
    names = _key_name s :: map snd aggregations /\
    types = _key_type s :: agg_types /\
    Forall2 (column_typed (_sample_table s)) agg_types aggregations /\
    Forall2 (member_row aggregations) rows (_tables s).
Proof.
  destruct s as [kn kt st cts cns tables]. simpl. intros Hne Hall.
  destruct tables as [|[k m] rest]; [contradiction|].
  inversion Hall as [|? ? [t ->] _]; subst.
  destruct (schema_loop st aggregations [kn] [kt]) as [[ns ts]|e] eqn:Hs;
    [|discriminate].
  cbn [bind].
  destruct (tables_loop _ aggregations []) as [out|e] eqn:Ho;
    [|discriminate].
  cbn [bind]. intros H. injection H as <- <- <-.
  destruct (schema_loop_spec _ _ _ _ Hs) as [ats [-> [-> F]]].
  destruct (tables_loop_spec _ _ Ho) as [rows' [-> F']].
  exists ats. simpl. auto.
Qed.

(** At any depth: when each member is a set and its own aggregation returns,
    the loop prepends the member's key to each of its rows and keeps the
    header of the latest result. *)
Lemma nested_loop_prepends :
  forall (items : odict) (results : list (aggregated DataType)),
    Forall2 (fun kv r => exists s, snd kv = MSet s /\
                                   _aggregate s aggregations = Ok r)
            items results ->
    forall last output,
      nested_loop (fun s => _aggregate s aggregations) items last output
      = Ok (fold_left (fun _ r => Some (fst r)) results last,
            output ++ flat_map (fun p => map (cons (PyStr (fst (fst p))))
                                             (snd (snd p)))
                               (combine items results)).
Proof.
  induction 1 as [|[k m] [[ns ts] rows] items results [s [Em Hr]] _ IH];
    intros last output; simpl.
  - rewrite app_nil_r. reflexivity.
  - simpl in Em. subst m. rewrite Hr. cbn [bind].
    rewrite IH, <- app_assoc. reflexivity.
Qed.

Lemma aggregate_prepends_outer_key (self : TableSet DataType)
    (front : list (aggregated DataType)) names types rows :
  Forall2 (fun kv r => exists s, snd kv = MSet s /\
                                 _aggregate s aggregations = Ok r)
          (_tables self) (front ++ [(names, types, rows)]) ->
  _aggregate self aggregations
  = Ok (_key_name self :: names, _key_type self :: types,
        flat_map (fun p => map (cons (PyStr (fst (fst p)))) (snd (snd p)))
                 (combine (_tables self) (front ++ [(names, types, rows)]))).
Proof.
  destruct self as [kn kt st cts cns tables]. simpl. intros H.
  pose proof (nested_loop_prepends H None []) as E.
  rewrite fold_left_app in E. simpl in E.
  destruct tables as [|[k m] rest].
  - apply Forall2_length in H. rewrite length_app in H. simpl in H. lia.
  - assert (Hm : exists s, m = MSet s).
    { inversion H as [|? ? ? ? [s [Em _]]]. exists s. exact Em. }
    destruct Hm as [s ->]. rewrite E. reflexivity.
Qed.

End Aggregations.

(** ** The construction of the aggregated table *)

Variable cast : DataType -> value -> result value.

Local Abbreviation cast_cells := (tableset.cast_cells cast).
Local Abbreviation cast_row := (tableset.cast_row cast).
Local Abbreviation cast_rows := (tableset.cast_rows cast).
Local Abbreviation Table_init := (tableset.Table_init cast).
Local Abbreviation aggregate := (tableset.aggregate cast).
Local Abbreviation begins_with_keys := (tableset.begins_with_keys cast).

Lemma distinct_NoDup (names : list str) :
  NoDup names -> distinct names = true.
Proof.
  induction 1 as [|n rest Hn _ IH]; simpl; [reflexivity|].
  rewrite IH, andb_true_r. unfold str_in.
  destruct (in_dec str_eq_dec n rest); [contradiction | reflexivity].
Qed.

Lemma cast_cells_length :
  forall (types : list DataType) raw row,
    List.length raw = List.length types ->
    cast_cells types raw = Ok row -> List.length row = List.length types.
Proof.
  induction types as [|ty types IH]; intros [|d cells] row Hl H;
    simpl in *; try discriminate.
  - injection H as <-. reflexivity.
  - destruct (cast ty d) as [v|e]; simpl in H; [|discriminate].
    destruct (tableset.cast_cells cast types cells) as [vs|e] eqn:Hc;
      simpl in H; [|discriminate].
    injection H as <-. simpl. f_equal. apply (IH cells); [lia | exact Hc].
Qed.

Lemma cast_row_length (types : list DataType) (raw row : list value) :
  cast_row types raw = Ok row ->
  List.length raw = List.length types /\
  List.length row = List.length types.
Proof.
  unfold tableset.cast_row.
  destruct (Nat.eqb (List.length raw) (List.length types)) eqn:E;
    [|discriminate].
  apply Nat.eqb_eq in E. intros H. split; [exact E|].
  apply (cast_cells_length _ _ E H).
Qed.

Lemma cast_row_cons (ty : DataType) (types : list DataType) (d : value)
    (cells row : list value) :
  cast_row (ty :: types) (d :: cells) = Ok row <->
  exists v rest,
    cast ty d = Ok v /\ cast_row types cells = Ok rest /\ row = v :: rest.
Proof.
  unfold tableset.cast_row. simpl.
  destruct (Nat.eqb (List.length cells) (List.length types)).
  - destruct (cast ty d) as [v|e]; simpl.
    + destruct (tableset.cast_cells cast types cells) as [vs|e]; simpl.
      * split.
        -- intros H. injection H as <-. exists v, vs. auto.
        -- intros [v' [rest [Hv [Hr ->]]]].
           injection Hv as <-. injection Hr as <-. reflexivity.
      * split; [discriminate|].
        intros [v' [rest [_ [Hr _]]]]. discriminate Hr.
    + split; [discriminate|]. intros [v' [rest [Hv _]]]. discriminate Hv.
  - split; [discriminate|]. intros [v' [rest [_ [Hr _]]]]. discriminate Hr.
Qed.

Lemma cast_rows_inv (types : list DataType) :
  forall raws rows,
    cast_rows types raws = Ok rows ->
    Forall2 (fun raw row => cast_row types raw = Ok row) raws rows.
Proof.
  induction raws as [|raw raws IH]; simpl; intros rows H.
  - injection H as <-. constructor.
  - destruct (tableset.cast_row cast types raw) as [r|e] eqn:Hr; simpl in H;
      [|discriminate].
    destruct (tableset.cast_rows cast types raws) as [rs|e]; simpl in H;
      [|discriminate].
    injection H as <-. constructor; [exact Hr | apply IH; reflexivity].
Qed.

Lemma cast_rows_total (types : list DataType) :
  forall raws,
    Forall (fun raw => exists row, cast_row types raw = Ok row) raws ->
    exists rows, cast_rows types raws = Ok rows.
Proof.
  induction 1 as [|raw raws [row Hr] _ [rows IH]]; simpl.
  - eexists. reflexivity.
  - rewrite Hr, IH. simpl. eexists. reflexivity.
Qed.

Lemma cast_rows_raises (types : list DataType) :
  forall raws,
    Exists (fun raw => exists e, cast_row types raw = Raise e) raws ->
    exists e, cast_rows types raws = Raise e.
Proof.
  induction 1 as [raw raws [e He]|raw raws _ [e IH]]; simpl.
  - rewrite He. simpl. eexists. reflexivity.
  - destruct (tableset.cast_row cast types raw); simpl;
      [rewrite IH; simpl|]; eexists; reflexivity.
Qed.

Lemma map_fst_combine {A B} (l : list A) (l' : list B) :
  List.length l = List.length l' -> map fst (combine l l') = l.
Proof.
  revert l'. induction l as [|a l IH]; intros [|b l']; simpl;
    try discriminate; auto.
  intros H. f_equal. apply IH. lia.
Qed.

Lemma map_snd_combine {A B} (l : list A) (l' : list B) :
  List.length l = List.length l' -> map snd (combine l l') = l'.
Proof.
  revert l'. induction l as [|a l IH]; intros [|b l']; simpl;
    try discriminate; auto.
  intros H. f_equal. apply IH. lia.
Qed.

Lemma Table_init_ok (names : list str) (types : list DataType)
    (raws rows : list (list value)) :
  List.length names = List.length types ->
  NoDup names ->
  cast_rows types raws = Ok rows ->
  Table_init raws (combine names types)
  = Ok {| table_column_names := names;
          table_column_types := types;
          table_rows := rows |}.
Proof.
  intros Hl Hn Hr. unfold tableset.Table_init.
  rewrite map_fst_combine, map_snd_combine by exact Hl.
  rewrite (distinct_NoDup Hn), Hr. reflexivity.
Qed.

Lemma Table_init_inv (names : list str) (types : list DataType)
    (raws : list (list value)) (table : Table DataType) :
  List.length names = List.length types ->
  Table_init raws (combine names types) = Ok table ->
  table_column_names table = names /\
  table_column_types table = types /\
  cast_rows types raws = Ok (table_rows table).
Proof.
  intros Hl. unfold tableset.Table_init.
  rewrite map_fst_combine, map_snd_combine by exact Hl.
  destruct (distinct names); [|discriminate].
  destruct (tableset.cast_rows cast types raws) as [rows|e]; simpl;
    [|discriminate].
  intros H. injection H as <-. auto.
Qed.

Lemma Table_init_raises (raws : list (list value))
    (column_info : list (str * DataType)) (e : exn) :
  cast_rows (map snd column_info) raws = Raise e ->
  exists e', Table_init raws column_info = Raise e'.
Proof.
  intros H. unfold tableset.Table_init.
  destruct (distinct (map fst column_info)); [rewrite H|];
    eexists; reflexivity.
Qed.

Lemma key_rows_cast (key_type : DataType) :
  forall (keys : list str) (cells : list value),
    Forall2 (fun key v => cast key_type (PyStr key) = Ok v) keys cells ->
    cast_rows [key_type] (map (fun key => [PyStr key]) keys)
    = Ok (map (fun v => [v]) cells).
Proof.
  induction 1 as [|key v keys cells Hv _ IH]; simpl; [reflexivity|].
  unfold tableset.cast_row. simpl. rewrite Hv. simpl. rewrite IH.
  reflexivity.
Qed.

(** C8, as amended: on a set of tables, [aggregate] with no aggregations
    hands the one column [key_name] of type [key_type] and one row per group
    to the construction of the table. When [key_type] casts every key, the
    table returned has that one column and one row per group, which holds the
    key of the group as cast by [key_type] and nothing else; when
    [key_type] refuses a key, [aggregate] raises. *)
Theorem aggregate_without_aggregations (self : TableSet DataType) :
  _tables self <> [] ->
  Forall (@is_table DataType) (values (_tables self)) ->
  (forall cells,
      Forall2 (fun key v => cast (_key_type self) (PyStr key) = Ok v)
              (TableSet_iter self) cells ->
      aggregate self []
      = Ok {| table_column_names := [_key_name self];
              table_column_types := [_key_type self];
              table_rows := map (fun v => [v]) cells |}) /\
  (forall key e,
      In key (TableSet_iter self) ->
      cast (_key_type self) (PyStr key) = Raise e ->
      exists e', aggregate self [] = Raise e').
Proof.
  destruct self as [kn kt st cts cns tables]. simpl. intros Hne Hall.
  destruct tables as [|[k m] rest]; [contradiction|].
  inversion Hall as [|? ? [t ->] _]; subst.
  assert (Ha : _aggregate (mkTableSet kn kt st cts cns ((k, MTable t) :: rest))
                          []
               = Ok ([kn], [kt],
                     map (fun key => [PyStr key])
                         (keys ((k, MTable t) :: rest)))).
  { cbn [_aggregate schema_loop bind].
    rewrite tables_loop_no_aggregations. cbn [bind app].
    unfold keys. rewrite map_map. reflexivity. }
  unfold tableset.aggregate, TableSet_iter. rewrite Ha. cbn [bind _tables].
  unfold _fork. split.
  - intros cells Hc.
    apply (@Table_init_ok [kn] [kt]); [reflexivity | | apply key_rows_cast, Hc].
    constructor; [intros [] | constructor].
  - intros key e Hin He.
    destruct (@cast_rows_raises [kt]
                (map (fun key => [PyStr key]) (keys ((k, MTable t) :: rest))))
      as [e' He'].
    + apply Exists_exists. exists [PyStr key]. split.
      * apply in_map_iff. exists key. auto.
      * exists e. unfold tableset.cast_row. simpl. rewrite He. reflexivity.
    + apply (@Table_init_raises _ (combine [kn] [kt]) e'). exact He'.
Qed.

(** ** Nested sets *)

(** Induction on a set with its nested sets. *)
Lemma TableSet_nested_ind (P : TableSet DataType -> Prop) :
  (forall self,
      Forall (fun kv => forall s, snd kv = MSet s -> P s) (_tables self) ->
      P self) ->
  forall self, P self.
Proof.
  intros H. fix IH 1. intros [kn kt st cts cns tables]. apply H. simpl.
  induction tables as [|[k m] rest IHr]; constructor; [|exact IHr].
  simpl. intros s E. destruct m as [t|s']; [discriminate E|].
  injection E as <-. apply IH.
Qed.

Section NestedAggregations.

Variable aggregations : list (aggregation_spec DataType).

Local Abbreviation nested :=
  (fun s : TableSet DataType => _aggregate s aggregations).

Local Abbreviation nested_results :=
  (tableset.nested_results aggregations).

Lemma nested_loop_last :
  forall (items : odict) last output last' output',
    nested_loop nested items last output = Ok (last', output') ->
    last' = last \/
    exists kv s r, In kv items /\ snd kv = MSet s /\
                   _aggregate s aggregations = Ok r /\
                   last' = Some (fst r).
Proof.
  induction items as [|[k m] rest IH]; intros last output last' output' H.
  - simpl in H. injection H as <- <-. left. reflexivity.
  - simpl in H. destruct m as [t|s]; [discriminate H|].
    destruct (_aggregate s aggregations) as [[[ns ts] rows]|e] eqn:Hs;
      [|discriminate H].
    cbn [bind] in H. destruct (IH _ _ _ _ H) as [->|[kv [s' [r [Hin Hr]]]]].
    + right. exists (k, MSet s), s, (ns, ts, rows).
      repeat split; auto. left. reflexivity.
    + right. exists kv, s', r. split; [right; exact Hin | exact Hr].
Qed.

Lemma nested_loop_rows :
  forall (items : odict) last output last' output',
    nested_loop nested items last output = Ok (last', output') ->
    exists added,
      output' = output ++ added /\
      Forall (fun raw => exists k cells,
                  In k (keys items) /\ raw = PyStr k :: cells) added.
Proof.
  induction items as [|[k m] rest IH]; intros last output last' output' H.
  - simpl in H. injection H as <- <-. exists []. rewrite app_nil_r. auto.
  - simpl in H. destruct m as [t|s]; [discriminate H|].
    destruct (_aggregate s aggregations) as [[[ns ts] rows]|e];
      [|discriminate H].
    cbn [bind] in H. destruct (IH _ _ _ _ H) as [added [-> F]].
    exists (map (cons (PyStr k)) rows ++ added).
    rewrite <- app_assoc. split; [reflexivity|].
    apply Forall_app. split.
    + apply Forall_forall. intros raw Hin. apply in_map_iff in Hin.
      destruct Hin as [cells [<- _]]. exists k, cells.
      split; [left|]; reflexivity.
    + eapply Forall_impl; [|exact F]. intros raw [k' [cells [Hin ->]]].
      exists k', cells. split; [right; exact Hin | reflexivity].
Qed.

Lemma member_rows_head :
  forall (raws : list (list value)) (items : odict),
    Forall2 (member_row aggregations) raws items ->
    Forall (fun raw => exists k cells,
                In k (keys items) /\ raw = PyStr k :: cells) raws.
Proof.
  induction 1 as [|raw [k' m'] raws items [cells [_ ->]] _ IH];
    constructor.
  - exists k', cells. split; [left|]; reflexivity.
  - eapply Forall_impl; [|exact IH]. intros raw [k0 [cells0 [Hin ->]]].
    exists k0, cells0. split; [right; exact Hin | reflexivity].
Qed.

(** At any depth, the header that [_aggregate] returns begins with the key
    name and key type of the set, and every row with one of its keys. *)
Lemma aggregate_rows_head (s : TableSet DataType) names types rows :
  _aggregate s aggregations = Ok (names, types, rows) ->
  exists names' types',
    names = _key_name s :: names' /\ types = _key_type s :: types' /\
    Forall (fun raw => exists k cells,
                In k (keys (_tables s)) /\ raw = PyStr k :: cells) rows.
Proof.
  destruct s as [kn kt st cts cns tables]. cbn [_aggregate _key_name _key_type _tables].
  destruct tables as [|[k [t|s']] rest]; [discriminate| |].
  - destruct (schema_loop st aggregations [kn] [kt]) as [[ns ts]|e] eqn:Hs;
      [|discriminate].
    cbn [bind].
    destruct (tables_loop _ aggregations []) as [out|e] eqn:Ho;
      [|discriminate].
    cbn [bind]. intros H. injection H as <- <- <-.
    destruct (schema_loop_spec _ _ _ _ Hs) as [ats [-> [-> _]]].
    destruct (tables_loop_spec _ _ _ Ho) as [rows' [-> F]].
    exists (map snd aggregations), ats. repeat split; try reflexivity.
    simpl. exact (member_rows_head F).
  - destruct (nested_loop _ _ None []) as [[last out]|e] eqn:Hn;
      [|discriminate].
    cbn [bind]. destruct last as [[cn ct]|]; [|discriminate].
    intros H. injection H as <- <- <-.
    destruct (nested_loop_rows _ _ _ Hn) as [added [-> F]].
    exists cn, ct. repeat split; try reflexivity. exact F.
Qed.

(** At any depth, the header has as many names as types. *)
Lemma aggregate_header_length :
  forall (s : TableSet DataType) names types rows,
    _aggregate s aggregations = Ok (names, types, rows) ->
    List.length names = List.length types.
Proof.
  induction s as [s IH] using TableSet_nested_ind.
  intros names types rows. revert IH.
  destruct s as [kn kt st cts cns tables].
  cbn [_aggregate _tables]. intros IH.
  destruct tables as [|[k [t|s']] rest]; [discriminate| |].
  - destruct (schema_loop st aggregations [kn] [kt]) as [[ns ts]|e] eqn:Hs;
      [|discriminate].
    cbn [bind].
    destruct (tables_loop _ aggregations []) as [out|e]; [|discriminate].
    cbn [bind]. intros H. injection H as <- <- <-.
    destruct (schema_loop_spec _ _ _ _ Hs) as [ats [-> [-> F]]].
    rewrite !length_app, length_map. simpl. f_equal.
    symmetry. exact (Forall2_length F).
  - destruct (nested_loop _ _ None []) as [[last out]|e] eqn:Hn;
      [|discriminate].
    cbn [bind]. destruct last as [[cn ct]|] eqn:El; [|discriminate].
    intros H. injection H as <- <- <-.
    destruct (nested_loop_last _ _ _ Hn)
      as [Habs|[kv [s0 [[[ns ts] rs] [Hin [Hs [Hr Hl]]]]]]];
      [discriminate Habs|].
    simpl in Hl. injection Hl as -> ->.
    rewrite Forall_forall in IH. simpl. f_equal.
    exact (IH kv Hin s0 Hs _ _ _ Hr).
Qed.

Lemma keyed_rows_raw (tables : odict)
    (results : list (aggregated DataType)) :
  flat_map (fun p => map (cons (PyStr (fst (fst p)))) (snd (snd p)))
           (combine tables results)
  = map (fun p => PyStr (fst p) :: snd p) (keyed_rows tables results).
Proof.
  unfold keyed_rows.
  induction (combine tables results) as [|p l IH]; simpl; [reflexivity|].
  rewrite map_app, map_map, IH. reflexivity.
Qed.

Lemma keyed_rows_heads :
  forall (tables : odict) results,
    nested_results tables results ->
    Forall (fun p => exists s inner_key cells,
                In (fst p, MSet s) tables /\
                In inner_key (keys (_tables s)) /\
                snd p = PyStr inner_key :: cells)
           (keyed_rows tables results).
Proof.
  unfold nested_results, keyed_rows.
  induction 1 as [|[k m] [[ns ts] rows] tables results [s [Em Hr]] _ IH];
    simpl; [constructor|].
  simpl in Em. subst m. apply Forall_app. split.
  - destruct (aggregate_rows_head _ Hr) as [ns' [ts' [_ [_ F]]]].
    apply Forall_forall. intros p Hin. apply in_map_iff in Hin.
    destruct Hin as [raw [<- Hraw]]. rewrite Forall_forall in F.
    destruct (F raw Hraw) as [inner_key [cells [Hk ->]]].
    exists s, inner_key, cells. simpl. repeat split; auto.
  - eapply Forall_impl; [|exact IH].
    intros p [s' [inner_key [cells [Hin [Hk Hp]]]]].
    exists s', inner_key, cells.
    split; [right; exact Hin|]. split; [exact Hk | exact Hp].
Qed.

Lemma keyed_rows_leaves :
  forall (tables : odict) results,
    nested_results tables results ->
    two_levels tables ->
    Forall2 (fun p leaf => fst p = fst (fst leaf) /\
                           exists cells,
                             snd p = PyStr (snd (fst leaf)) :: cells)
            (keyed_rows tables results) (leaves tables).
Proof.
  unfold nested_results, keyed_rows, two_levels.
  induction 1 as [|[k m] [[ns ts] rows] tables results [s [Em Hr]] _ IH];
    simpl; intros Htwo; [constructor|].
  simpl in Em. subst m. inversion Htwo as [|? ? [s0 [Es Htabs]] Hrest]; subst.
  injection Es as <-.
  apply Forall2_app; [|apply IH; exact Hrest].
  assert (Hne : _tables s <> []).
  { intros E. destruct s as [a b c d e0 tabs]. simpl in E. subst tabs.
    discriminate Hr. }
  destruct (aggregate_tables_spec _ _ Hne Htabs Hr) as [ats [_ [_ [_ F]]]].
  clear - F. induction F as [|raw [k' m'] raws items [cells [_ ->]] _ IHF];
    simpl; constructor; [|exact IHF].
  simpl. split; [reflexivity | exists cells; reflexivity].
Qed.

Lemma Forall2_Forall_l {A B} (R : A -> B -> Prop) (P : A -> Prop) :
  forall l l', Forall2 R l l' -> Forall P l ->
               Forall2 (fun a b => R a b /\ P a) l l'.
Proof.
  induction 1 as [|a b l l' Hab _ IH]; intros HP; constructor;
    inversion HP; subst; auto.
Qed.

Lemma Forall2_map_left {A B C} (f : A -> B) (R : B -> C -> Prop) :
  forall l l', Forall2 R (map f l) l' ->
               Forall2 (fun a c => R (f a) c) l l'.
Proof.
  induction l as [|a l IH]; intros l' H; inversion H; subst;
    constructor; auto.
Qed.

Lemma Forall2_swap {A B} (R : A -> B -> Prop) :
  forall l l', Forall2 R l l' -> Forall2 (fun b a => R a b) l' l.
Proof. induction 1; constructor; auto. Qed.

Lemma Forall2_compose {A B C} (R : A -> B -> Prop) (S : B -> C -> Prop) :
  forall l l' l'', Forall2 R l l' -> Forall2 S l' l'' ->
                   Forall2 (fun a c => exists b, R a b /\ S b c) l l''.
Proof.
  intros l l' l'' H. revert l''.
  induction H as [|a b l l' Hab _ IH]; intros l'' H'; inversion H'; subst;
    constructor; [exists b; auto | apply IH; assumption].
Qed.

(** C1, as amended: on a set whose members are sets, at any depth, whose own
    aggregations return, [aggregate] prepends the outer key to each nested
    result and hands header and rows to the construction of the table; the
    header of the nested results is the one of the last member. When the
    column names are distinct and the column types cast every row, the table
    returned has the outer key column first, then the inner key column, then
    the other columns of the nested result; it has one row per nested row,
    in order, and each begins with the outer key and the inner key as cast
    by the key types of the two levels. On a set of sets of tables the other
    columns are the aggregation columns, and there is exactly one row per
    (outer key, inner key) leaf. *)
Theorem aggregate_nested (self : TableSet DataType)
    (front : list (aggregated DataType)) (names : list str)
    (types : list DataType) (rows : list (list value)) :
  nested_results (_tables self) (front ++ [(names, types, rows)]) ->
  NoDup (_key_name self :: names) ->
  Forall (fun p => exists row,
              cast_row (_key_type self :: types) (PyStr (fst p) :: snd p)
              = Ok row)
         (keyed_rows (_tables self) (front ++ [(names, types, rows)])) ->
  exists before key inner names' types' table,
    _tables self = before ++ [(key, MSet inner)] /\
    names = _key_name inner :: names' /\
    types = _key_type inner :: types' /\
    aggregate self aggregations = Ok table /\
    table_column_names table
    = _key_name self :: _key_name inner :: names' /\
    table_column_types table
    = _key_type self :: _key_type inner :: types' /\
    Forall2 (fun row p =>
               exists s inner_key cells,
                 In (fst p, MSet s) (_tables self) /\
                 In inner_key (keys (_tables s)) /\
                 snd p = PyStr inner_key :: cells /\
                 begins_with_keys (_key_type self) (_key_type inner)
                                  (fst p) inner_key row)
            (table_rows table)
            (keyed_rows (_tables self) (front ++ [(names, types, rows)])) /\
    (two_levels (_tables self) ->
     names' = map snd aggregations /\
     Forall2 (fun row leaf =>
                begins_with_keys (_key_type self) (_key_type inner)
                                 (fst (fst leaf)) (snd (fst leaf)) row)
             (table_rows table) (leaves (_tables self))).
Proof.
  intros Hres Hnd Hcast.
  set (results := front ++ [(names, types, rows)]) in *.
  (* the last member and its header *)
  assert (Hlast : exists before key inner,
             _tables self = before ++ [(key, MSet inner)] /\
             _aggregate inner aggregations = Ok (names, types, rows)).
  { unfold nested_results in Hres. subst results.
    apply Forall2_app_inv_r in Hres.
    destruct Hres as [before [lastl [Hb [Hl E]]]].
    inversion Hl as [|[key m] r l1 l2 [inner [Em Hr]] Hnil]; subst.
    inversion Hnil. subst. simpl in Em. subst m.
    exists before, key, inner. auto. }
  destruct Hlast as [before [key [inner [Etab Hinner]]]].
  destruct (aggregate_rows_head _ Hinner) as [names' [types' [En [Et _]]]].
  pose proof (aggregate_header_length _ Hinner) as Hlen.
  (* what [_aggregate] returns *)
  pose proof (@aggregate_prepends_outer_key aggregations self front names
                types rows Hres) as Ha.
  fold results in Ha. rewrite keyed_rows_raw in Ha.
  (* the construction *)
  destruct (@cast_rows_total (_key_type self :: types)
              (map (fun p => PyStr (fst p) :: snd p)
                   (keyed_rows (_tables self) results)))
    as [data Hdata].
  { apply Forall_map. exact Hcast. }
  assert (Hagg : aggregate self aggregations
                 = Ok {| table_column_names := _key_name self :: names;
                         table_column_types := _key_type self :: types;
                         table_rows := data |}).
  { unfold tableset.aggregate. rewrite Ha. cbn [bind]. unfold _fork.
    apply Table_init_ok; [simpl; f_equal; exact Hlen | exact Hnd | exact Hdata]. }
  exists before, key, inner, names', types'. eexists.
  split; [exact Etab|]. split; [exact En|]. split; [exact Et|].
  split; [exact Hagg|]. simpl.
  split; [rewrite En; reflexivity|]. split; [rewrite Et; reflexivity|].
  (* the rows *)
  apply cast_rows_inv in Hdata. apply Forall2_map_left in Hdata.
  assert (Hrows : Forall2
            (fun row p =>
               exists s inner_key cells,
                 In (fst p, MSet s) (_tables self) /\
                 In inner_key (keys (_tables s)) /\
                 snd p = PyStr inner_key :: cells /\
                 begins_with_keys (_key_type self) (_key_type inner)
                                  (fst p) inner_key row)
            data (keyed_rows (_tables self) results)).
  { apply Forall2_swap.
    pose proof (Forall2_Forall_l Hdata (keyed_rows_heads Hres)) as H.
    eapply Forall2_impl; [|exact H].
    intros p row [Hc [s [inner_key [cells [Hin [Hk Hp]]]]]].
    exists s, inner_key, cells. repeat split; auto.
    rewrite Hp, Et in Hc.
    apply cast_row_cons in Hc. destruct Hc as [vo [rest [Hvo [Hrest ->]]]].
    apply cast_row_cons in Hrest. destruct Hrest as [vi [rest' [Hvi [_ ->]]]].
    exists vo, vi, rest'. auto. }
  split; [exact Hrows|].
  intros Htwo. split.
  - assert (Hin : _tables inner <> []).
    { intros E. destruct inner as [a b c d e0 tabs]. simpl in E. subst tabs.
      discriminate Hinner. }
    assert (Htabs : Forall (@is_table DataType) (values (_tables inner))).
    { unfold two_levels in Htwo. rewrite Etab in Htwo. unfold values in Htwo.
      rewrite map_app in Htwo. apply Forall_app in Htwo.
      destruct Htwo as [_ Hl]. inversion Hl as [|? ? [s [Es Hs]] _]; subst.
      simpl in Es. injection Es as <-. exact Hs. }
    destruct (aggregate_tables_spec _ _ Hin Htabs Hinner) as [ats [En' _]].
    rewrite En in En'. injection En' as ->. reflexivity.
  - pose proof (Forall2_compose Hrows (keyed_rows_leaves Hres Htwo)) as H.
    eapply Forall2_impl; [|exact H].
    intros row leaf [p [[s [inner_key [cells [_ [_ [Hp Hb]]]]]] [Ef [cells' Ep]]]].
    rewrite Hp in Ep. injection Ep as -> _. rewrite Ef in Hb. exact Hb.
Qed.

End NestedAggregations.

End TableSetFacts.

Section TableSetExamples.

Import fixtures tableset.

Local Abbreviation init := (TableSet_init data_type_eq_dec TextType).

Example by_state_2014_constructed :
  init states_2014 (Some (u "state")) (Some NumberType) = Ok by_state_2014.
Proof. reflexivity. Qed.

Example by_year_constructed :
  init years (Some (u "year")) None = Ok by_year.
Proof. reflexivity. Qed.

Example by_year_text_constructed :
  init years_text (Some (u "year")) None = Ok by_year_text.
Proof. reflexivity. Qed.

Example by_year_totals :
  aggregate data_cast by_year_text total_population = Ok totals_by_year.
Proof. reflexivity. Qed.

Example by_state_2014_limit :
  TableMethodProxy_call data_type_eq_dec TextType (limit 1) by_state_2014
  = Ok limited_2014.
Proof. reflexivity. Qed.

Lemma init_checks_member_schemas_witness :
  (exists self,
      init states_2014 (Some (u "state")) None = Ok self /\
      TableSet_iter self = [u "CA"; u "NY"] /\
      _tables self = states_2014) /\
  ((init [(u "CA", MTable CA_2014); (u "XX", MTable other_names)] None None
    = Raise (ValueError types_message) /\
    Exists (fun kv => member_column_types (snd kv)
                      <> get_column_types CA_2014)
           [(u "CA", MTable CA_2014); (u "XX", MTable other_names)]) \/
   (init [(u "CA", MTable CA_2014); (u "XX", MTable other_names)] None None
    = Raise (ValueError names_message) /\
    Exists (fun kv => member_column_names (snd kv)
                      <> get_column_names CA_2014)
           [(u "CA", MTable CA_2014); (u "XX", MTable other_names)])).
Proof.
  split.
  - apply (init_checks_member_schemas data_type_eq_dec TextType states_2014
             (Some (u "state")) None (sample := CA_2014) eq_refl).
    repeat constructor.
  - apply (init_checks_member_schemas data_type_eq_dec TextType
             [(u "CA", MTable CA_2014); (u "XX", MTable other_names)]
             None None (sample := CA_2014) eq_refl).
    apply Exists_cons_tl, Exists_cons_hd.
    intros [_ H]. vm_compute in H. discriminate H.
Defined.

(** C7 fails as stated: on the empty group the constructor raises none of
    its own two errors; what comes out is the [IndexError] of
    [list(group.values())[0]]. *)
Lemma init_empty_group_no_explicit_error :
  init [] None None = Raise (IndexError (Msg "list index out of range")) /\
  ~ (exists e, init [] None None = Raise e /\ raised_by_init e).
Proof.
  split; [reflexivity|].
  intros [e [H [R|R]]]; rewrite R in H; discriminate H.
Qed.

Lemma aggregate_without_aggregations_witness :
  aggregate data_cast by_state_text_2014 []
  = Ok {| table_column_names := [u "state"];
          table_column_types := [TextType];
          table_rows := map (fun v => [v]) [PyStr (u "CA"); PyStr (u "NY")] |}
  /\ exists e', aggregate data_cast by_state_2014 [] = Raise e'.
Proof.
  split.
  - apply (@aggregate_without_aggregations data_type data_cast
             by_state_text_2014).
    + discriminate.
    + repeat constructor; eexists; reflexivity.
    + repeat constructor.
  - apply (proj2 (@aggregate_without_aggregations data_type data_cast
                    by_state_2014
                    ltac:(discriminate)
                    ltac:(repeat constructor; eexists; reflexivity))
                 (u "CA")
                 (CastError (MsgFormat number.parse_message (PyStr (u "CA"))))).
    + left. reflexivity.
    + reflexivity.
Defined.

(** C8 fails as stated: the table is built under its column types. Under the
    key type [Number()] the keys CA and NY are refused and [aggregate]
    raises [CastError]; under [Text()] the row of the key NA holds the null
    value, not the key. *)
Lemma aggregate_without_aggregations_casts_keys :
  init states_2014 (Some (u "state")) (Some NumberType) = Ok by_state_2014 /\
  aggregate data_cast by_state_2014 []
  = Raise (CastError (MsgFormat number.parse_message (PyStr (u "CA")))) /\
  aggregate data_cast by_NA []
  = Ok {| table_column_names := [u "state"];
          table_column_types := [TextType];
          table_rows := [[PyNone]] |}.
Proof. repeat split; reflexivity. Qed.

Lemma aggregate_nested_witness :
  exists before key inner names' types' table,
    _tables by_year_text = before ++ [(key, MSet inner)] /\
    [u "state"; u "total_population"] = _key_name inner :: names' /\
    [TextType; NumberType] = _key_type inner :: types' /\
    aggregate data_cast by_year_text total_population = Ok table /\
    table_column_names table
    = _key_name by_year_text :: _key_name inner :: names' /\
    table_column_types table
    = _key_type by_year_text :: _key_type inner :: types' /\
    Forall2 (fun row p =>
               exists s inner_key cells,
                 In (fst p, MSet s) (_tables by_year_text) /\
                 In inner_key (keys (_tables s)) /\
                 snd p = PyStr inner_key :: cells /\
                 begins_with_keys data_cast (_key_type by_year_text)
                                  (_key_type inner) (fst p) inner_key row)
            (table_rows table)
            (keyed_rows (_tables by_year_text)
               ([([u "state"; u "total_population"], [TextType; NumberType],
                  [[PyStr (u "CA"); PyInt 15]; [PyStr (u "NY"); PyInt 20]])]
                ++ [([u "state"; u "total_population"],
                     [TextType; NumberType],
                     [[PyStr (u "CA"); PyInt 17];
                      [PyStr (u "NY"); PyInt 25]])])) /\
    (two_levels (_tables by_year_text) ->
     names' = map snd total_population /\
     Forall2 (fun row leaf =>
                begins_with_keys data_cast (_key_type by_year_text)
                                 (_key_type inner)
                                 (fst (fst leaf)) (snd (fst leaf)) row)
             (table_rows table) (leaves (_tables by_year_text))).
Proof.
  apply (@aggregate_nested data_type data_cast total_population by_year_text).
  - repeat constructor; eexists; split; reflexivity.
  - repeat constructor; simpl; intros H;
      repeat (destruct H as [H|H]; [vm_compute in H; discriminate H|]);
      exact H.
  - repeat constructor; eexists; reflexivity.
Defined.

(** C1 fails as stated: the table is built under its column types. With the
    inner key type [Number()] the inner keys CA and NY are refused, and
    [aggregate] raises [CastError] although each nested aggregation
    returns. *)
Lemma aggregate_nested_casts_keys :
  init years (Some (u "year")) None = Ok by_year /\
  (exists r, _aggregate by_state_2014 total_population = Ok r) /\
  (exists r, _aggregate by_state_2015 total_population = Ok r) /\
  aggregate data_cast by_year total_population
  = Raise (CastError (MsgFormat number.parse_message (PyStr (u "CA")))).
Proof.
  split; [reflexivity|]. split; [eexists; reflexivity|].
  split; [eexists; reflexivity | reflexivity].
Qed.

Lemma proxy_keeps_key_name_resets_key_type_witness :
  _key_type by_state_2014 = NumberType /\
  _key_name limited_2014 = _key_name by_state_2014 /\
  _key_type limited_2014 = TextType.
Proof.
  split; [reflexivity|].
  apply (@proxy_keeps_key_name_resets_key_type data_type data_type_eq_dec
           TextType (limit 1) by_state_2014 limited_2014).
  reflexivity.
Defined.

End TableSetExamples.

(** * Further properties *)

(** ** Stripping and padding *)

Section StripMore.

Variable p : N -> bool.

Lemma lstrip_by_all (a s : str) :
  forallb p a = true -> lstrip_by p (a ++ s) = lstrip_by p s.
Proof.
  induction a as [|c a IH]; simpl; intros H; [reflexivity|].
  apply andb_prop in H. destruct H as [Hc Ha]. rewrite Hc. apply IH, Ha.
Qed.

Lemma lstrip_by_app (s b : str) :
  lstrip_by p s <> [] -> lstrip_by p (s ++ b) = lstrip_by p s ++ b.
Proof.
  induction s as [|c s IH]; simpl; intros H; [contradiction|].
  destruct (p c); [apply IH, H | reflexivity].
Qed.

Lemma lstrip_by_nil (s : str) :
  lstrip_by p s = [] -> forallb p s = true.
Proof.
  induction s as [|c s IH]; simpl; intros H; [reflexivity|].
  destruct (p c); [apply IH, H | discriminate H].
Qed.

Lemma rstrip_by_all (s b : str) :
  forallb p b = true -> rstrip_by p (s ++ b) = rstrip_by p s.
Proof.
  intros H. unfold rstrip_by. rewrite rev_app_distr, lstrip_by_all;
    [reflexivity|].
  rewrite forallb_forall in *. intros x Hx. apply H, in_rev, Hx.
Qed.

Lemma strip_by_padding (a s b : str) :
  forallb p a = true -> forallb p b = true ->
  strip_by p (a ++ s ++ b) = strip_by p s.
Proof.
  intros Ha Hb. unfold strip_by. rewrite lstrip_by_all by exact Ha.
  destruct (lstrip_by p s) as [|c r] eqn:E.
  - rewrite lstrip_by_all by exact (lstrip_by_nil _ E).
    rewrite <- (app_nil_r b), lstrip_by_all by exact Hb. reflexivity.
  - rewrite lstrip_by_app by (rewrite E; discriminate).
    rewrite E. apply rstrip_by_all, Hb.
Qed.

End StripMore.

(** ** More of [Number.test] and [Number.cast] *)

Section NumberMore.

Import number.

Variable lower : str -> str.
Variable parse_decimal : str -> str -> option Decimal.

Local Abbreviation test := (number.test lower parse_decimal).
Local Abbreviation cast := (number.cast lower parse_decimal).

(** What [cast] returns is the null value or a decimal, and casting it again
    returns it unchanged. *)
Theorem cast_returns_decimal_or_None_and_is_idempotent (self : Number)
    (d v : value) :
  cast self d = Ok v ->
  (v = PyNone \/ exists x, v = PyDecimal x) /\ cast self v = Ok v.
Proof.
  destruct d; simpl.
  - intros H. injection H as <-. split; [left|]; reflexivity.
  - intros H. injection H as <-. split; [right; eexists|]; reflexivity.
  - intros H. injection H as <-. split; [right; eexists|]; reflexivity.
  - discriminate.
  - intros H. injection H as <-. split; [right; eexists|]; reflexivity.
  - destruct (str_in _ _).
    + intros H. injection H as <-. split; [left|]; reflexivity.
    + unfold cast_parse. simpl. destruct (parse_decimal _ _); simpl.
      * intros H. injection H as <-. split; [right; eexists|]; reflexivity.
      * discriminate.
  - unfold cast_parse. simpl. destruct items as [|x [|y r]]; discriminate.
  - discriminate.
Qed.

(** Whitespace around a text changes neither what [test] answers nor what
    [cast] returns or raises. *)
Theorem test_and_cast_ignore_padding (self : Number) (a d b : str) :
  forallb isspace a = true -> forallb isspace b = true ->
  test self (a ++ d ++ b) = test self d /\
  cast self (PyStr (a ++ d ++ b)) = cast self (PyStr d).
Proof.
  intros Ha Hb.
  assert (E : strip (a ++ d ++ b) = strip d)
    by (apply strip_by_padding; assumption).
  split.
  - unfold number.test, test_strip, percent_stripped. rewrite E. reflexivity.
  - simpl. rewrite E. reflexivity.
Qed.

(** On a text whose trimmed form neither begins nor ends with a percent sign
    or a currency symbol, [test] answers true exactly when [cast] returns. *)
Theorem test_agrees_with_cast_on_plain_text (self : Number) (s : str) :
  plain_ends decorated (strip s) = true ->
  (test self s = true <-> exists v, cast self (PyStr s) = Ok v).
Proof.
  intros Hplain. unfold number.test.
  rewrite (test_strip_plain lower parse_decimal _ Hplain).
  simpl. destruct (str_in _ _).
  - split; [intros _; eexists; reflexivity | reflexivity].
  - unfold cast_parse. simpl. destruct (parse_decimal _ _); simpl.
    + split; [intros _; eexists; reflexivity | reflexivity].
    + split; [discriminate | intros [v H]; discriminate H].
Qed.

End NumberMore.

Section NumberMoreExamples.

Import number fixtures.

Lemma cast_returns_decimal_or_None_and_is_idempotent_witness :
  (PyDecimal (Finite false 123456 (-2)) = PyNone \/
   exists x, PyDecimal (Finite false 123456 (-2)) = PyDecimal x) /\
  cast_en en_US (PyDecimal (Finite false 123456 (-2)))
  = Ok (PyDecimal (Finite false 123456 (-2))).
Proof.
  apply (@cast_returns_decimal_or_None_and_is_idempotent
           ascii_lower Babel.parse_decimal en_US (PyStr (u "1,234.56"))).
  vm_compute. reflexivity.
Defined.

Lemma test_and_cast_ignore_padding_witness :
  test_en en_US (u "  " ++ u "12.5" ++ u " ") = test_en en_US (u "12.5") /\
  cast_en en_US (PyStr (u "  " ++ u "12.5" ++ u " "))
  = cast_en en_US (PyStr (u "12.5")).
Proof.
  apply (@test_and_cast_ignore_padding ascii_lower Babel.parse_decimal);
    reflexivity.
Defined.

Lemma test_agrees_with_cast_on_plain_text_witness :
  test_en en_US (u " 1,234.56 ") = true <->
  exists v, cast_en en_US (PyStr (u " 1,234.56 ")) = Ok v.
Proof.
  apply (@test_agrees_with_cast_on_plain_text ascii_lower Babel.parse_decimal).
  vm_compute. reflexivity.
Defined.

End NumberMoreExamples.

(** ** More of [TableSet] *)

Section TableSetMore.

Import tableset tableset_csv.

Variable DataType : Type.
Variable DataType_eq_dec : forall a b : DataType, {a = b} + {a <> b}.
Variable Text : DataType.

Local Abbreviation TableSet_init := (tableset.TableSet_init DataType_eq_dec Text).
Local Abbreviation check_members := (tableset.check_members DataType_eq_dec).
Local Abbreviation TableMethodProxy_call :=
  (tableset.TableMethodProxy_call DataType_eq_dec Text).
Local Abbreviation proxied := (tableset_csv.proxied DataType_eq_dec Text).
Local Abbreviation odict := (tableset.odict DataType).

Lemma check_members_inv (sample : Table DataType) (group : odict) :
  check_members (get_column_types sample) (get_column_names sample) group
  = Ok tt ->
  Forall (same_schema sample) group.
Proof.
  induction group as [|[k m] rest IH]; simpl; intros H; [constructor|].
  destruct (types_eq_dec _ _ _) as [Et|]; [|discriminate].
  destruct (names_eq_dec _ _) as [En|]; [|discriminate].
  constructor; [split; assumption | apply IH, H].
Qed.

(** A set that the constructor returns holds the group as given, which is
    not empty; its sample table is the one found in the group, and every
    direct member has the column names and column types that the set
    reports. *)
Theorem constructed_set_invariants (group : odict) (key_name : option str)
    (key_type : option DataType) (self : TableSet DataType) :
  TableSet_init group key_name key_type = Ok self ->
  _tables self = group /\
  TableSet_len self = List.length group /\
  group <> [] /\
  find_sample group = Ok (_sample_table self) /\
  TableSet_get_column_names self = get_column_names (_sample_table self) /\
  TableSet_get_column_types self = get_column_types (_sample_table self) /\
  Forall (fun kv =>
            member_column_names (snd kv) = TableSet_get_column_names self /\
            member_column_types (snd kv) = TableSet_get_column_types self)
         group.
Proof.
  unfold tableset.TableSet_init.
  destruct (find_sample group) as [sample|e] eqn:Hs; simpl; [|discriminate].
  destruct (tableset.check_members _ _ _ _) as [[]|e] eqn:Hc; simpl;
    [|discriminate].
  intros H. injection H as <-.
  unfold TableSet_len, TableSet_get_column_names, TableSet_get_column_types.
  simpl. repeat split; auto.
  - intros ->. discriminate Hs.
  - apply check_members_inv in Hc. eapply Forall_impl; [|exact Hc].
    intros kv [Ht Hn]. split; assumption.
Qed.

(** Lookup by key: what comes back is a member stored under that key, and a
    lookup fails, with a [KeyError] for the key, exactly on the keys that
    iteration does not give. *)
Theorem getitem_characterised (self : TableSet DataType) (k : str) :
  match TableSet_getitem self k with
  | Ok m => In (k, m) (_tables self) /\ In k (TableSet_iter self)
  | Raise e => e = KeyError k /\ ~ In k (TableSet_iter self)
  end.
Proof.
  unfold TableSet_getitem, TableSet_iter, keys.
  induction (_tables self) as [|[k' v] rest IH]; simpl.
  - split; [reflexivity | intros []].
  - destruct (str_eq_dec k k') as [->|Hne].
    + split; left; reflexivity.
    + destruct (odict_get k rest) as [m|e].
      * destruct IH as [H1 H2]. split; right; assumption.
      * destruct IH as [-> H]. split; [reflexivity|].
        intros [E|Hin]; [apply Hne; symmetry; exact E | exact (H Hin)].
Qed.

Lemma odict_set_fresh (k : str) (v : Member DataType) (d : odict) :
  ~ In k (keys d) -> odict_set k v d = d ++ [(k, v)].
Proof.
  induction d as [|[k' v'] rest IH]; simpl; intros H; [reflexivity|].
  destruct (str_eq_dec k k') as [->|Hne].
  - exfalso. apply H. left. reflexivity.
  - f_equal. apply IH. intros Hin. apply H. right. exact Hin.
Qed.

Lemma proxy_loop_fanout
    (call : Member DataType -> result (Member DataType)) :
  forall (items groups groups' : odict),
    NoDup (keys groups ++ keys items) ->
    proxy_loop call items groups = Ok groups' ->
    exists added,
      groups' = groups ++ added /\
      Forall2 (fun kv kv' => fst kv' = fst kv /\ call (snd kv) = Ok (snd kv'))
              items added.
Proof.
  induction items as [|[k m] rest IH]; simpl; intros groups groups' Hnd H.
  - injection H as <-. exists []. rewrite app_nil_r. auto.
  - destruct (call m) as [r|e] eqn:Hc; simpl in H; [|discriminate].
    assert (Hk : ~ In k (keys groups)).
    { intros Hin. apply NoDup_remove_2 in Hnd. apply Hnd.
      apply in_or_app. left. exact Hin. }
    rewrite (@odict_set_fresh k r groups Hk) in H.
    destruct (IH (groups ++ [(k, r)]) groups') as [added [-> F]].
    + unfold keys in *. rewrite map_app, <- app_assoc. simpl. exact Hnd.
    + exact H.
    + exists ((k, r) :: added). rewrite <- app_assoc. split; auto.
Qed.

Lemma proxy_call_unfold
    (method : Table DataType -> result (Member DataType))
    (self : TableSet DataType) :
  TableMethodProxy_call method self
  = (groups <- proxy_loop (proxied method) (_tables self) [] ;;
     TableSet_init groups (Some (_key_name self)) None).
Proof. destruct self. reflexivity. Qed.

Lemma init_ok_tables (group : odict) key_name key_type self :
  TableSet_init group key_name key_type = Ok self -> _tables self = group.
Proof.
  unfold tableset.TableSet_init.
  destruct (find_sample group); simpl; [|discriminate].
  destruct (tableset.check_members _ _ _ _); simpl; [|discriminate].
  intros H. injection H as <-. reflexivity.
Qed.

(** A proxied call that returns is a fan-out: under the same keys in the
    same order, each member of the new set is what the method returned for
    the member of the original (for a nested set, what its own proxy
    returned). The keys of a mapping are distinct. *)
Theorem proxy_fans_out
    (method : Table DataType -> result (Member DataType))
    (self new_set : TableSet DataType) :
  NoDup (TableSet_iter self) ->
  TableMethodProxy_call method self = Ok new_set ->
  TableSet_iter new_set = TableSet_iter self /\
  TableSet_len new_set = TableSet_len self /\
  Forall2 (fun kv kv' =>
             fst kv' = fst kv /\ proxied method (snd kv) = Ok (snd kv'))
          (_tables self) (_tables new_set).
Proof.
  intros Hnd H. rewrite proxy_call_unfold in H.
  destruct (proxy_loop _ _ _) as [groups|e] eqn:Hl; simpl in H;
    [|discriminate].
  apply init_ok_tables in H.
  destruct (@proxy_loop_fanout (proxied method) (_tables self) [] groups
              Hnd Hl) as [added [-> F]].
  simpl in H. unfold TableSet_iter, TableSet_len, keys. rewrite H.
  assert (Hk : map fst added = map fst (_tables self)).
  { clear - F. induction F as [|? ? ? ? [E _] _ IH]; simpl;
      [reflexivity | f_equal; assumption]. }
  split; [exact Hk|]. split; [|exact F].
  rewrite <- (length_map fst added), Hk, length_map. reflexivity.
Qed.

(** The first member on which the proxied method raises ends the call with
    that exception; no set is returned for the members that succeeded. *)
Theorem proxy_raises_first_failure
    (method : Table DataType -> result (Member DataType))
    (self : TableSet DataType) (front rest : odict) (k : str)
    (m : Member DataType) (e : exn) :
  _tables self = front ++ (k, m) :: rest ->
  Forall (fun kv => exists r, proxied method (snd kv) = Ok r) front ->
  proxied method m = Raise e ->
  TableMethodProxy_call method self = Raise e.
Proof.
  intros Ht Hfront Hm. rewrite proxy_call_unfold, Ht.
  assert (Hl : forall groups,
             proxy_loop (proxied method) (front ++ (k, m) :: rest) groups
             = Raise e).
  { clear Ht. induction Hfront as [|[k' m'] front' [r Hr] _ IH];
      intros groups; simpl.
    - rewrite Hm. reflexivity.
    - simpl in Hr. rewrite Hr. simpl. apply IH. }
  rewrite Hl. reflexivity.
Qed.

End TableSetMore.

(** ** More of [TableSet.aggregate] *)

Section AggregateMore.

Import tableset tableset_csv.

Variable DataType : Type.
Variable cast : DataType -> value -> result value.

Local Abbreviation odict := (tableset.odict DataType).
Local Abbreviation aggregation_spec := (tableset.aggregation_spec DataType).
Local Abbreviation cast_row := (tableset.cast_row cast).
Local Abbreviation cast_rows := (tableset.cast_rows cast).
Local Abbreviation aggregate := (tableset.aggregate cast).

Lemma row_loop_length (table : Member DataType) :
  forall (aggs : list aggregation_spec) row row',
    row_loop table aggs row = Ok row' ->
    List.length row' = List.length row + List.length aggs.
Proof.
  induction aggs as [|[[cn a] new] rest IH]; simpl; intros row row' H.
  - injection H as <-. lia.
  - destruct (member_columns table cn) as [c|e]; simpl in H; [|discriminate].
    destruct (Column_aggregate c a) as [v|e]; simpl in H; [|discriminate].
    rewrite (IH _ _ H), length_app. simpl. lia.
Qed.

Lemma Forall2_map_right {A B C} (f : C -> B) (R : A -> B -> Prop) :
  forall l l', Forall2 (fun a c => R a (f c)) l l' ->
               Forall2 R l (map f l').
Proof. induction 1; simpl; constructor; auto. Qed.

(** When [aggregate] returns on a set of tables, the table has the key column
    and one column per aggregation, under the new names in their order, and
    one row per group in iteration order; every row has a cell for every
    column, the first being the key of its group as cast by the key type. *)
Theorem aggregate_tables_shape (self : TableSet DataType)
    (aggregations : list aggregation_spec) (table : Table DataType) :
  _tables self <> [] ->
  Forall (@is_table DataType) (values (_tables self)) ->
  aggregate self aggregations = Ok table ->
  table_column_names table = _key_name self :: map snd aggregations /\
  List.length (table_column_types table) = S (List.length aggregations) /\
  List.length (table_rows table) = TableSet_len self /\
  Forall (fun row => List.length row = S (List.length aggregations))
         (table_rows table) /\
  Forall2 (fun row key =>
             exists v rest,
               row = v :: rest /\
               cast (_key_type self) (PyStr key) = Ok v)
          (table_rows table) (TableSet_iter self).
Proof.
  intros Hne Hall. unfold tableset.aggregate.
  destruct (_aggregate self aggregations) as [[[names types] rows]|e] eqn:Ha;
    cbn [bind]; [|discriminate].
  destruct (aggregate_tables_spec _ _ Hne Hall Ha)
    as [ats [-> [-> [Fty Frows]]]].
  assert (Hats : List.length ats = List.length aggregations)
    by exact (Forall2_length Fty).
  assert (Hlen : List.length (_key_name self :: map snd aggregations)
                 = List.length (_key_type self :: ats)).
  { simpl. rewrite length_map, Hats. reflexivity. }
  unfold _fork. intros H.
  apply Table_init_inv in H; [|exact Hlen].
  destruct H as [-> [Et Hdata]]. rewrite Et. clear Et.
  apply cast_rows_inv in Hdata.
  split; [reflexivity|]. split; [simpl; f_equal; exact Hats|].
  unfold TableSet_len, TableSet_iter, keys.
  split; [|split].
  - rewrite <- (Forall2_length Hdata). exact (Forall2_length Frows).
  - clear - Hdata Hats. induction Hdata as [|raw row raws rows' Hr _ IH];
      constructor; [|exact IH].
    apply cast_row_length in Hr. destruct Hr as [_ Hr]. rewrite Hr.
    simpl. f_equal. exact Hats.
  - apply Forall2_map_right.
    pose proof (Forall2_compose (Forall2_swap Hdata) Frows) as Hc.
    eapply Forall2_impl; [|exact Hc].
    intros row [k m] [raw [Hr [cells [_ ->]]]]. simpl in *.
    apply cast_row_cons in Hr. destruct Hr as [v [rest [Hv [_ ->]]]].
    exists v, rest. auto.
Qed.

Lemma tables_loop_set (aggregations : list aggregation_spec) :
  aggregations <> [] ->
  forall (items : odict) output,
    Exists (@is_set DataType) (values items) ->
    forall r, tables_loop items aggregations output <> Ok r.
Proof.
  intros Hne. induction items as [|[k m] rest IH]; intros output Hex r;
    [inversion Hex|].
  simpl. destruct (row_loop m aggregations [PyStr k]) as [row|e] eqn:Hr;
    simpl; [|discriminate].
  apply IH. inversion Hex as [? ? [s Hs]|]; [|assumption].
  exfalso. simpl in Hs. subst m.
  destruct aggregations as [|[[cn a] new] rest']; [contradiction|].
  simpl in Hr. discriminate Hr.
Qed.

(** A set whose first member is a table and that also holds a set is never
    aggregated when an aggregation is given: a set has no [columns], and
    [aggregate] raises. *)
Theorem aggregate_table_then_set_raises (self : TableSet DataType)
    (aggregations : list aggregation_spec) (k : str) (t : Table DataType)
    (rest : odict) :
  aggregations <> [] ->
  _tables self = (k, MTable t) :: rest ->
  Exists (@is_set DataType) (values rest) ->
  exists e, _aggregate self aggregations = Raise e /\
            aggregate self aggregations = Raise e.
Proof.
  intros Hne Ht Hs.
  assert (H : forall r, _aggregate self aggregations <> Ok r).
  { destruct self as [kn kt st cts cns tables]. simpl in Ht. subst tables.
    intros r. cbn [_aggregate].
    destruct (schema_loop st aggregations [kn] [kt]) as [[ns ts]|e];
      [|discriminate].
    cbn [bind].
    destruct (tables_loop _ aggregations []) as [out|e] eqn:Ho;
      [|discriminate].
    exfalso. apply (tables_loop_set Hne) in Ho; [exact Ho|].
    apply Exists_cons_tl. exact Hs. }
  unfold tableset.aggregate.
  destruct (_aggregate self aggregations) as [r|e].
  - exfalso. exact (H r eq_refl).
  - exists e. split; reflexivity.
Qed.

Lemma schema_loop_returns (sample : Table DataType) :
  forall (aggs : list aggregation_spec) names types,
    Forall (fun a => exists c, columns sample (fst (fst a)) = Ok c) aggs ->
    exists r, schema_loop sample aggs names types = Ok r.
Proof.
  induction aggs as [|[[cn a] new] rest IH]; simpl; intros names types H.
  - eexists. reflexivity.
  - inversion H as [|? ? [c Hc] Hrest]; subst. simpl in Hc. rewrite Hc.
    simpl. apply IH, Hrest.
Qed.

Lemma row_loop_returns (table : Member DataType) :
  forall (aggs : list aggregation_spec) row,
    Forall (fun a => exists c v,
                member_columns table (fst (fst a)) = Ok c /\
                Column_aggregate c (snd (fst a)) = Ok v) aggs ->
    exists r, row_loop table aggs row = Ok r.
Proof.
  induction aggs as [|[[cn a] new] rest IH]; simpl; intros row H.
  - eexists. reflexivity.
  - inversion H as [|? ? [c [v [Hc Hv]]] Hrest]; subst. simpl in Hc, Hv.
    rewrite Hc. simpl. rewrite Hv. simpl. apply IH, Hrest.
Qed.

Lemma tables_loop_returns (aggregations : list aggregation_spec) :
  forall (items : odict) output,
    Forall (fun kv =>
              Forall (fun a => exists c v,
                          member_columns (snd kv) (fst (fst a)) = Ok c /\
                          Column_aggregate c (snd (fst a)) = Ok v)
                     aggregations) items ->
    exists r, tables_loop items aggregations output = Ok r.
Proof.
  induction items as [|[k m] rest IH]; simpl; intros output H.
  - eexists. reflexivity.
  - inversion H as [|? ? Hm Hrest]; subst. simpl in Hm.
    destruct (row_loop_returns _ [PyStr k] Hm) as [row Hr].
    rewrite Hr. simpl. apply IH, Hrest.
Qed.

Lemma row_loop_cells (table : Member DataType) :
  forall (aggs : list aggregation_spec) cells,
    row_loop table aggs [] = Ok cells ->
    Forall2 (fun v a => exists c,
                 member_columns table (fst (fst a)) = Ok c /\
                 Column_aggregate c (snd (fst a)) = Ok v) cells aggs.
Proof.
  induction aggs as [|[[cn a] new] rest IH]; simpl; intros cells H.
  - injection H as <-. constructor.
  - destruct (member_columns table cn) as [c|e] eqn:Hc; simpl in H;
      [|discriminate].
    destruct (Column_aggregate c a) as [v|e] eqn:Hv; simpl in H;
      [|discriminate].
    rewrite row_loop_acc in H.
    destruct (row_loop table rest []) as [cells'|e]; simpl in H;
      [|discriminate].
    injection H as <-. constructor; [|apply IH; reflexivity].
    exists c. auto.
Qed.

Lemma column_typed_functional (sample : Table DataType) :
  forall (aggs : list aggregation_spec) a b,
    Forall2 (column_typed sample) a aggs ->
    Forall2 (column_typed sample) b aggs -> a = b.
Proof.
  induction aggs as [|spec aggs IH]; intros a b Ha Hb;
    inversion Ha; inversion Hb; subst; [reflexivity|].
  f_equal; [|apply IH; assumption].
  match goal with
  | H1 : column_typed _ ?x spec, H2 : column_typed _ ?y spec |- ?x = ?y =>
      destruct H1 as [c1 [E1 ->]]; destruct H2 as [c2 [E2 ->]];
      rewrite E1 in E2; injection E2 as <-; reflexivity
  end.
Qed.

Lemma cast_row_total :
  forall (types : list DataType) (raw : list value),
    Forall2 (fun ty d => exists v, cast ty d = Ok v) types raw ->
    exists row, cast_row types raw = Ok row.
Proof.
  induction 1 as [|ty d types raw [v Hv] _ [row IH]].
  - exists []. reflexivity.
  - exists (v :: row). apply cast_row_cons. exists v, row. auto.
Qed.

(** [aggregate] returns on a set whose first member is a table when the new
    column names and the key name are distinct and, for every member, the
    key type casts its key and each aggregation finds its column, returns,
    and returns what the type inferred for it casts. *)
Theorem aggregate_tables_returns (self : TableSet DataType)
    (aggregations : list aggregation_spec) (k : str) (t : Table DataType)
    (rest : odict) (agg_types : list DataType) :
  _tables self = (k, MTable t) :: rest ->
  NoDup (_key_name self :: map snd aggregations) ->
  Forall2 (column_typed (_sample_table self)) agg_types aggregations ->
  Forall (fun kv =>
            (exists v, cast (_key_type self) (PyStr (fst kv)) = Ok v) /\
            Forall2 (fun ty a => exists c v w,
                         member_columns (snd kv) (fst (fst a)) = Ok c /\
                         Column_aggregate c (snd (fst a)) = Ok v /\
                         cast ty v = Ok w)
                    agg_types aggregations) (_tables self) ->
  exists table, aggregate self aggregations = Ok table.
Proof.
  destruct self as [kn kt st cts cns tables].
  cbn [_tables _key_name _key_type _sample_table].
  intros -> Hnd Hty Hrows.
  unfold tableset.aggregate. cbn [_aggregate].
  (* the header *)
  destruct (@schema_loop_returns st aggregations [kn] [kt]) as [[ns ts] Es].
  { clear - Hty. induction Hty as [|ty a tys aggs [c [Hc _]] _ IH];
      constructor; [exists c; exact Hc | exact IH]. }
  rewrite Es. cbn [bind].
  destruct (schema_loop_spec _ _ _ _ Es) as [ats [-> [-> Fty]]].
  assert (ats = agg_types) by exact (column_typed_functional Fty Hty).
  subst ats.
  (* the rows *)
  destruct (@tables_loop_returns aggregations ((k, MTable t) :: rest) [])
    as [out Eo].
  { eapply Forall_impl; [|exact Hrows]. intros kv [_ H].
    clear - H. induction H as [|ty a tys aggs [c [v [w [Hc [Hv _]]]]] _ IH];
      constructor; [exists c, v; auto | exact IH]. }
  rewrite Eo. cbn [bind].
  destruct (tables_loop_spec _ _ _ Eo) as [rows [-> Frows]].
  (* the construction *)
  destruct (@cast_rows_total _ cast ([kt] ++ agg_types) ([] ++ rows))
    as [data Hdata].
  { simpl. clear - Frows Hrows.
    induction Frows as [|raw [k' m'] raws items [cells [Hc ->]] _ IH];
      constructor.
    - inversion Hrows as [|? ? [[v Hv] Hagg] _]; subst. simpl in *.
      apply cast_row_total. constructor; [exists v; exact Hv|].
      apply row_loop_cells in Hc. clear - Hc Hagg.
      revert cells Hc.
      induction Hagg as [|ty a tys aggs [c [v [w [Hc' [Hv' Hw]]]]] _ IH];
        intros cells Hc; inversion Hc as [|v0 ? cells' ? [c0 [Hc0 Hv0]]];
        subst; constructor.
      + rewrite Hc' in Hc0. injection Hc0 as <-.
        rewrite Hv' in Hv0. injection Hv0 as <-. exists w. exact Hw.
      + apply IH. assumption.
    - apply IH. inversion Hrows; assumption. }
  unfold _fork. eexists. apply (@Table_init_ok _ cast).
  - simpl. f_equal. rewrite length_map.
    symmetry. exact (Forall2_length Hty).
  - exact Hnd.
  - exact Hdata.
Qed.

Lemma schema_loop_raises (sample : Table DataType) (e : exn) :
  forall (front rest : list aggregation_spec) (spec : aggregation_spec)
         names types,
    Forall (fun a => exists c, columns sample (fst (fst a)) = Ok c) front ->
    columns sample (fst (fst spec)) = Raise e ->
    schema_loop sample (front ++ spec :: rest) names types = Raise e.
Proof.
  induction front as [|[[cn a] new] front IH];
    intros rest [[cn' a'] new'] names types Hfront Hspec; simpl in *.
  - rewrite Hspec. reflexivity.
  - inversion Hfront as [|? ? [c Hc] Hrest]; subst. simpl in Hc.
    rewrite Hc. simpl. apply IH; assumption.
Qed.

(** On a set of tables, the columns are looked up in the sample table before
    any table is aggregated: the first aggregation whose column lookup
    raises there decides what [aggregate] raises, whatever the tables
    hold. *)
Theorem aggregate_raises_missing_column (self : TableSet DataType)
    (front rest : list aggregation_spec) (spec : aggregation_spec)
    (e : exn) :
  _tables self <> [] ->
  Forall (@is_table DataType) (values (_tables self)) ->
  Forall (fun a => exists c,
              columns (_sample_table self) (fst (fst a)) = Ok c) front ->
  columns (_sample_table self) (fst (fst spec)) = Raise e ->
  aggregate self (front ++ spec :: rest) = Raise e.
Proof.
  destruct self as [kn kt st cts cns tables]. simpl. intros Hne Hall Hf Hs.
  destruct tables as [|[k m] tables']; [contradiction|].
  inversion Hall as [|? ? [t ->] _]; subst.
  unfold tableset.aggregate. cbn [_aggregate].
  rewrite schema_loop_raises with (e := e); [reflexivity | exact Hf | exact Hs].
Qed.

End AggregateMore.

(** ** Paths and the names of CSV files *)

Section Paths.

Import posixpath.

Lemma before_sep_app (s r : str) :
  no_sep s -> before_sep (s ++ sep :: r) = s.
Proof.
  unfold no_sep. induction s as [|c s IH]; simpl; intros H.
  - reflexivity.
  - apply andb_prop in H. destruct H as [Hc Hs].
    apply negb_true_iff in Hc. rewrite Hc. f_equal. apply IH, Hs.
Qed.

Lemma before_sep_all (s : str) : no_sep s -> before_sep s = s.
Proof.
  unfold no_sep. induction s as [|c s IH]; simpl; intros H; [reflexivity|].
  apply andb_prop in H. destruct H as [Hc Hs].
  apply negb_true_iff in Hc. rewrite Hc. f_equal. apply IH, Hs.
Qed.

Lemma no_sep_rev (s : str) : no_sep s -> no_sep (rev s).
Proof.
  unfold no_sep. rewrite !forallb_forall. intros H x Hx.
  apply H, in_rev, Hx.
Qed.

Lemma tail_all (f : str) : no_sep f -> tail f = f.
Proof.
  intros H. unfold tail. rewrite before_sep_all by exact (no_sep_rev H).
  apply rev_involutive.
Qed.

Lemma tail_app (a f : str) : no_sep f -> tail (a ++ sep :: f) = f.
Proof.
  intros H. unfold tail. rewrite rev_app_distr. simpl.
  rewrite <- app_assoc. simpl.
  rewrite before_sep_app by exact (no_sep_rev H).
  apply rev_involutive.
Qed.

(** The last component of a joined path is the file name that was joined,
    when the name holds no separator. *)
Lemma tail_join (a f : str) : no_sep f -> tail (join a f) = f.
Proof.
  intros H. unfold join.
  assert (Hs : startswith_sep f = false).
  { destruct f as [|c f]; [reflexivity|]. simpl. unfold no_sep in H.
    simpl in H. apply andb_prop in H. destruct H as [Hc _].
    apply negb_true_iff in Hc. exact Hc. }
  rewrite Hs. destruct a as [|c a]; [apply tail_all, H|].
  destruct (endswith_sep (c :: a)) eqn:He; [|apply tail_app, H].
  unfold endswith_sep in He.
  destruct (rev (c :: a)) as [|c' r] eqn:Hr; [discriminate He|].
  simpl in He. apply N.eqb_eq in He. subst c'.
  assert (E : c :: a = rev r ++ [sep]).
  { rewrite <- (rev_involutive (c :: a)), Hr. reflexivity. }
  rewrite E, <- app_assoc. simpl. apply tail_app, H.
Qed.

End Paths.

Section CsvNames.

Import tableset tableset_csv posixpath.

(** The key under which [from_csv] loads the file that [to_csv] wrote for a
    key without separators is the key stripped of the code points of
    [".csv"]; it is the key itself exactly when the key neither begins nor
    ends with one of them. *)
Theorem csv_name_round_trip (dir_path name : str) :
  no_sep name ->
  table_name (csv_path dir_path name) = strip_chars (u ".csv") name /\
  (table_name (csv_path dir_path name) = name <->
   plain_ends (fun c => mem c (u ".csv")) name = true).
Proof.
  intros Hn.
  assert (E : table_name (csv_path dir_path name)
              = strip_chars (u ".csv") name).
  { unfold table_name, csv_path. rewrite tail_join.
    - unfold strip_chars.
      apply (strip_by_padding (fun c => mem c (u ".csv")) [] name (u ".csv"));
        reflexivity.
    - unfold no_sep in *. rewrite forallb_app, Hn. reflexivity. }
  split; [exact E|]. rewrite E. unfold strip_chars. split.
  - intros H. rewrite <- H. apply strip_by_plain_ends.
  - apply strip_by_plain.
Qed.

End CsvNames.

(** ** [TableSet.from_csv] *)

Section FromCsv.

Import tableset tableset_csv.

Variable DataType : Type.
Variable DataType_eq_dec : forall a b : DataType, {a = b} + {a <> b}.
Variable Text : DataType.
Variable TypeTester : Type.
Variable isdir : str -> bool.
Variable glob : str -> list str.
Variable Table_from_csv :
  str -> column_info DataType TypeTester -> bool -> outcome (Table DataType).

Local Abbreviation odict := (tableset.odict DataType).
Local Abbreviation load_loop := (tableset_csv.load_loop Table_from_csv).
Local Abbreviation from_csv :=
  (tableset_csv.from_csv DataType_eq_dec Text isdir glob Table_from_csv).
Local Abbreviation pattern dir_path :=
  (posixpath.join dir_path (u "*.csv")).

(** [from_csv] returns only for a directory in which [glob] finds a file,
    and never for a [TypeTester] without headers. *)
Theorem from_csv_returns_only_if (dir_path : str)
    (info : column_info DataType TypeTester) (header : bool)
    (self : TableSet DataType) :
  from_csv dir_path info header = Returned self ->
  isdir dir_path = true /\
  (header = true \/ exists pairs, info = Columns _ pairs) /\
  glob (pattern dir_path) <> [].
Proof.
  unfold tableset_csv.from_csv. intros H.
  assert (Hh : header = true \/ exists pairs, info = Columns _ pairs).
  { destruct info as [t|pairs]; [|right; eexists; reflexivity].
    destruct header; [left; reflexivity | discriminate H]. }
  assert (Hu : (match info with Tester _ _ => true | Columns _ _ => false end
                && negb header)%bool = false).
  { destruct Hh as [->|[pairs ->]]; [apply andb_false_r | reflexivity]. }
  rewrite Hu in H.
  destruct (isdir dir_path); [|discriminate H]. simpl in H.
  split; [reflexivity|]. split; [exact Hh|].
  intros Hg. rewrite Hg in H. simpl in H. discriminate H.
Qed.

Lemma keys_odict_set (k : str) (v : Member DataType) (d : odict) :
  keys (odict_set k v d)
  = if in_dec str_eq_dec k (keys d) then keys d else keys d ++ [k].
Proof.
  induction d as [|[k' v'] rest IH]; simpl; [reflexivity|].
  destruct (str_eq_dec k k') as [Ek|Hne]; simpl.
  - subst k'. destruct (str_eq_dec k k); [reflexivity | contradiction].
  - rewrite IH. destruct (str_eq_dec k' k) as [E|Hne'];
      [exfalso; apply Hne; symmetry; exact E|].
    destruct (in_dec str_eq_dec k (keys rest)); reflexivity.
Qed.

Lemma load_loop_keys (use_inference header : bool) :
  forall (paths : list str) info inferred (tables tables' : odict),
    load_loop use_inference header paths info inferred tables
    = Returned tables' ->
    (Forall (@is_table DataType) (values tables) ->
     Forall (@is_table DataType) (values tables')) /\
    (NoDup (keys tables) -> NoDup (keys tables')) /\
    (forall k, In k (keys tables') <->
               In k (keys tables) \/ In k (map table_name paths)) /\
    (NoDup (keys tables ++ map table_name paths) ->
     keys tables' = keys tables ++ map table_name paths).
Proof.
  induction paths as [|path rest IH]; simpl;
    intros info inferred tables tables' H.
  - injection H as <-. rewrite app_nil_r.
    split; [auto|]. split; [auto|]. split; [|auto].
    intros k. simpl. tauto.
  - destruct (Table_from_csv path info header) as [table|e];
      [|discriminate H].
    set (tables1 := odict_set (table_name path) (MTable table) tables) in H.
    assert (Hrec : exists info' inferred',
               load_loop use_inference header rest info' inferred' tables1
               = Returned tables').
    { destruct (use_inference && negb inferred)%bool; eauto. }
    destruct Hrec as [info' [inferred' Hrec]].
    destruct (IH _ _ _ _ Hrec) as [I1 [I2 [I3 I4]]].
    pose proof (keys_odict_set (table_name path) (MTable table) tables) as Hk.
    fold tables1 in Hk.
    split; [|split; [|split]].
    + intros Ht. apply I1. apply odict_set_values; [|exact Ht].
      eexists; reflexivity.
    + intros Hnd. apply I2. rewrite Hk.
      destruct (in_dec str_eq_dec _ _) as [Hin|Hnin]; [exact Hnd|].
      apply NoDup_app; [exact Hnd | repeat constructor; intros [] |].
      intros x Hx [<-|[]]. exact (Hnin Hx).
    + intros k. rewrite I3, Hk.
      destruct (in_dec str_eq_dec _ _) as [Hin|Hnin].
      * split; [intros [H1|H1]; auto | intros [H1|[<-|H1]]; auto].
      * rewrite in_app_iff. simpl.
        split; [intros [[H1|[<-|[]]]|H1]; auto | intros [H1|[<-|H1]]; auto].
    + intros Hnd.
      assert (Hnin : ~ In (table_name path) (keys tables)).
      { intros Hin. apply NoDup_remove_2 in Hnd. apply Hnd.
        apply in_or_app. left. exact Hin. }
      destruct (in_dec str_eq_dec (table_name path) (keys tables))
        as [Hin|_]; [contradiction|].
      rewrite I4; rewrite Hk, <- app_assoc; [reflexivity | exact Hnd].
Qed.

(** The set that [from_csv] returns has the default key name and key type
    and holds tables only; its keys are the stripped names of the files that
    [glob] found, each once, and in the order of [glob] when those names are
    distinct. *)
Theorem from_csv_keys (dir_path : str)
    (info : column_info DataType TypeTester) (header : bool)
    (self : TableSet DataType) :
  from_csv dir_path info header = Returned self ->
  _key_name self = u "group" /\ _key_type self = Text /\
  Forall (@is_table DataType) (values (_tables self)) /\
  NoDup (TableSet_iter self) /\
  (forall k, In k (TableSet_iter self) <->
             In k (map table_name (glob (pattern dir_path)))) /\
  (NoDup (map table_name (glob (pattern dir_path))) ->
   TableSet_iter self = map table_name (glob (pattern dir_path))).
Proof.
  unfold tableset_csv.from_csv.
  destruct (_ && negb header)%bool; [discriminate|].
  destruct (negb (isdir dir_path)); [discriminate|].
  destruct (tableset_csv.load_loop _ _ _ _ _ _ _) as [tables|e] eqn:Hl;
    [|discriminate].
  unfold TableSet_init.
  destruct (find_sample tables); simpl; [|discriminate].
  destruct (check_members _ _ _ _); simpl; [|discriminate].
  intros H. injection H as <-. unfold TableSet_iter. simpl.
  destruct (load_loop_keys _ _ _ _ _ _ Hl) as [I1 [I2 [I3 I4]]].
  split; [reflexivity|]. split; [reflexivity|].
  split; [apply I1; constructor|]. split; [apply I2; constructor|].
  split.
  - intros k. rewrite I3. simpl. tauto.
  - intros Hnd. apply I4. exact Hnd.
Qed.

Lemma load_loop_inferred (header : bool) :
  forall (paths : list str) info inferred (tables : odict),
    load_loop true header paths info true tables
    = load_loop false header paths info inferred tables.
Proof.
  induction paths as [|path rest IH]; simpl; intros info inferred tables;
    [reflexivity|].
  destruct (Table_from_csv path info header); [|reflexivity]. apply IH.
Qed.

(** With a [TypeTester], only the first file that [glob] found is read with
    the tester: after it, the load goes on as a load of the other files with
    the names and types of the first table as explicit columns. *)
Theorem from_csv_infers_once (dir_path path : str) (rest : list str)
    (t : TypeTester) (first : Table DataType) :
  isdir dir_path = true ->
  glob (pattern dir_path) = path :: rest ->
  Table_from_csv path (Tester _ t) true = Returned first ->
  from_csv dir_path (Tester _ t) true
  = match load_loop false true rest
            (Columns _ (combine (get_column_names first)
                                (get_column_types first)))
            false [(table_name path, MTable first)] with
    | Raised e => Raised e
    | Returned tables =>
        match TableSet_init DataType_eq_dec Text tables None None with
        | Ok self => Returned self
        | Raise e => Raised (Exception e)
        end
    end.
Proof.
  intros Hd Hg Hf. unfold tableset_csv.from_csv.
  rewrite Hd, Hg. simpl. rewrite Hf. simpl.
  rewrite (load_loop_inferred true rest _ false). reflexivity.
Qed.

End FromCsv.

Section MoreExamples.

Import tableset tableset_csv fixtures fixtures_more.

Lemma keys_CA_NY_distinct : NoDup [u "CA"; u "NY"].
Proof.
  constructor; [|constructor; [intros []|constructor]].
  intros [H|[]]. vm_compute in H. discriminate H.
Qed.

Lemma constructed_set_invariants_witness :
  _tables by_state_2014 = states_2014 /\
  TableSet_len by_state_2014 = List.length states_2014 /\
  states_2014 <> [] /\
  find_sample states_2014 = Ok (_sample_table by_state_2014) /\
  TableSet_get_column_names by_state_2014
  = get_column_names (_sample_table by_state_2014) /\
  TableSet_get_column_types by_state_2014
  = get_column_types (_sample_table by_state_2014) /\
  Forall (fun kv =>
            member_column_names (snd kv)
            = TableSet_get_column_names by_state_2014 /\
            member_column_types (snd kv)
            = TableSet_get_column_types by_state_2014)
         states_2014.
Proof.
  apply (@constructed_set_invariants data_type data_type_eq_dec TextType
           states_2014 (Some (u "state")) (Some NumberType) by_state_2014).
  reflexivity.
Defined.

Lemma proxy_fans_out_witness :
  TableSet_iter limited_2014 = TableSet_iter by_state_2014 /\
  TableSet_len limited_2014 = TableSet_len by_state_2014 /\
  Forall2 (fun kv kv' =>
             fst kv' = fst kv /\
             proxied data_type_eq_dec TextType (limit 1) (snd kv)
             = Ok (snd kv'))
          (_tables by_state_2014) (_tables limited_2014).
Proof.
  apply (@proxy_fans_out data_type data_type_eq_dec TextType (limit 1)
           by_state_2014 limited_2014).
  - exact keys_CA_NY_distinct.
  - reflexivity.
Defined.

Lemma proxy_raises_first_failure_witness :
  TableMethodProxy_call data_type_eq_dec TextType two_rows by_state_2014
  = Raise (ValueError (Msg "too few rows")).
Proof.
  apply (@proxy_raises_first_failure data_type data_type_eq_dec TextType
           two_rows by_state_2014 [(u "CA", MTable CA_2014)] []
           (u "NY") (MTable NY_2014)).
  - reflexivity.
  - repeat constructor. eexists. reflexivity.
  - reflexivity.
Defined.

Lemma aggregate_tables_shape_witness :
  table_column_names totals_2014
  = _key_name by_state_text_2014 :: map snd total_population /\
  List.length (table_column_types totals_2014)
  = S (List.length total_population) /\
  List.length (table_rows totals_2014) = TableSet_len by_state_text_2014 /\
  Forall (fun row => List.length row = S (List.length total_population))
         (table_rows totals_2014) /\
  Forall2 (fun row key =>
             exists v rest,
               row = v :: rest /\
               data_cast (_key_type by_state_text_2014) (PyStr key) = Ok v)
          (table_rows totals_2014) (TableSet_iter by_state_text_2014).
Proof.
  apply (@aggregate_tables_shape data_type data_cast by_state_text_2014
           total_population totals_2014).
  - discriminate.
  - repeat constructor; eexists; reflexivity.
  - reflexivity.
Defined.

Example by_mixed_constructed :
  TableSet_init data_type_eq_dec TextType mixed None None = Ok by_mixed.
Proof. reflexivity. Qed.

Lemma aggregate_table_then_set_raises_witness :
  exists e, _aggregate by_mixed total_population = Raise e /\
            aggregate data_cast by_mixed total_population = Raise e.
Proof.
  apply (@aggregate_table_then_set_raises data_type data_cast by_mixed
           total_population (u "CA") CA_2014 [(u "2015", MSet by_state_2015)]).
  - discriminate.
  - reflexivity.
  - apply Exists_cons_hd. eexists. reflexivity.
Defined.

Lemma aggregate_tables_returns_witness :
  exists table,
    aggregate data_cast by_state_text_2014 total_population = Ok table.
Proof.
  apply (@aggregate_tables_returns data_type data_cast by_state_text_2014
           total_population (u "CA") CA_2014 [(u "NY", MTable NY_2014)]
           [NumberType]).
  - reflexivity.
  - repeat constructor; simpl; intros H;
      repeat (destruct H as [H|H]; [vm_compute in H; discriminate H|]);
      exact H.
  - repeat constructor. eexists. split; reflexivity.
  - repeat constructor;
      try (eexists; reflexivity);
      (eexists; eexists; eexists; repeat split; reflexivity).
Defined.

Lemma aggregate_raises_missing_column_witness :
  aggregate data_cast by_state_2014 total_area
  = Raise (ColumnDoesNotExistError (u "area")).
Proof.
  apply (@aggregate_raises_missing_column data_type data_cast by_state_2014
           [(u "population", Sum, u "total_population")] []
           (u "area", Sum, u "total_area")).
  - discriminate.
  - repeat constructor; eexists; reflexivity.
  - repeat constructor. eexists. reflexivity.
  - reflexivity.
Defined.

Lemma csv_name_round_trip_witness :
  table_name (csv_path (u "data") (u "NY")) = strip_chars (u ".csv") (u "NY")
  /\ (table_name (csv_path (u "data") (u "NY")) = u "NY" <->
      plain_ends (fun c => mem c (u ".csv")) (u "NY") = true).
Proof.
  apply (@csv_name_round_trip (u "data") (u "NY")). reflexivity.
Defined.

Example cars_csv_loads_as_ar :
  table_name (csv_path (u "data") (u "cars")) = u "ar".
Proof. reflexivity. Qed.

Example data_loaded :
  data_from_csv (u "data") explicit_columns true = Returned loaded.
Proof. reflexivity. Qed.

Lemma from_csv_returns_only_if_witness :
  data_isdir (u "data") = true /\
  (true = true \/ exists pairs, explicit_columns = Columns unit pairs) /\
  data_glob (posixpath.join (u "data") (u "*.csv")) <> [].
Proof.
  apply (@from_csv_returns_only_if data_type data_type_eq_dec TextType unit
           data_isdir data_glob data_reader (u "data") explicit_columns true
           loaded).
  reflexivity.
Defined.

Lemma from_csv_keys_witness :
  _key_name loaded = u "group" /\ _key_type loaded = TextType /\
  Forall (@is_table data_type) (values (_tables loaded)) /\
  NoDup (TableSet_iter loaded) /\
  (forall k, In k (TableSet_iter loaded) <->
             In k (map table_name
                       (data_glob (posixpath.join (u "data") (u "*.csv"))))) /\
  (NoDup (map table_name
              (data_glob (posixpath.join (u "data") (u "*.csv")))) ->
   TableSet_iter loaded
   = map table_name (data_glob (posixpath.join (u "data") (u "*.csv")))).
Proof.
  apply (@from_csv_keys data_type data_type_eq_dec TextType unit
           data_isdir data_glob data_reader (u "data") explicit_columns true
           loaded).
  reflexivity.
Defined.

Lemma from_csv_infers_once_witness :
  data_from_csv (u "data") (Tester data_type tt) true
  = match load_loop data_reader false true [u "data/NY.csv"]
            (Columns unit (combine (get_column_names CA_2014)
                                   (get_column_types CA_2014)))
            false [(table_name (u "data/CA.csv"), MTable CA_2014)] with
    | Raised e => Raised e
    | Returned tables =>
        match TableSet_init data_type_eq_dec TextType tables None None with
        | Ok self => Returned self
        | Raise e => Raised (Exception e)
        end
    end.
Proof.
  apply (@from_csv_infers_once data_type data_type_eq_dec TextType unit
           data_isdir data_glob data_reader (u "data") (u "data/CA.csv")
           [u "data/NY.csv"] tt CA_2014); reflexivity.
Defined.

End MoreExamples.
